(** * platform.ts: platform guards for methods, properties and classes

    A shallow embedding of [src/platform.ts] and the properties of its
    platform resolver, tag registry and the three guards (method, property,
    class).

    Modelling conventions.
    - The module-level variables ([simulatedPlatform], the two registries)
      and the host environment form an explicit [State]; functions that read
      or write them are state transformers, functions that can throw return
      an [outcome].
    - A JavaScript function object is a piece of code together with the two
      symbol-keyed marks this module may put on it.  Functions written by the
      client are opaque: [Native id] is the client's function object number
      [id], interpreted by a parameter [behav]; a copy made with [bind] is
      another function object and has another number.  Function objects are
      held by value and told apart by their code: a mark put on a function
      shows in every member of the object that holds that function.
    - An object is the association list of its own properties, in the order
      [Object.getOwnPropertyNames] lists them, together with the own
      properties of its prototype, which is as far as [construct] looks.  A
      property is a data property or one of the two accessor pairs this
      module installs; the variable captured by an accessor pair lives in
      the slot.  Objects are ordinary: extensible, their data properties
      writable and configurable, and the client's classes declare no
      accessors of their own and extend no other class.
    - A property access looks at the own properties and at the prototype
      and no further.  What every object inherits from [Object.prototype]
      (the names of [objectPrototypeKeys]) is not part of an object here,
      so a statement about a member that is missing is made for names that
      [Object.prototype] does not have. *)

From stdpp Require Import base strings gmap list.

Set Warnings "-clear-no-such-hyp".

Open Scope string_scope.

(** ** Platforms *)

(** [type TargetPlatformType = 'web' | 'node'] *)
Inductive TargetPlatformType : Set := web | node.

(** [type PlatformType = TargetPlatformType | 'unknown'] *)
Inductive PlatformType : Set :=
  | Target (t : TargetPlatformType)
  | unknown.

Coercion Target : TargetPlatformType >-> PlatformType.

(** [type SimulatedPlatformType = PlatformType | undefined] *)
Definition SimulatedPlatformType : Set := option PlatformType.

#[global] Instance TargetPlatformType_eq_dec : EqDecision TargetPlatformType.
Proof. solve_decision. Defined.

#[global] Instance PlatformType_eq_dec : EqDecision PlatformType.
Proof. solve_decision. Defined.

(** The string a platform is at run time; it is what the message templates
    interpolate and what [===] compares. *)
Definition targetName (t : TargetPlatformType) : string :=
  match t with
  | web => "web"
  | node => "node"
  end.

Definition platformName (p : PlatformType) : string :=
  match p with
  | Target t => targetName t
  | unknown => "unknown"
  end.

(** [const enabled = true] *)
Definition enabled : bool := true.

(** ** Errors and outcomes *)

(** [new Error(msg)] and the engine's [TypeError] (whose text depends on the
    engine and is not modelled). *)
Inductive exn : Set :=
  | JsError (msg : string)
  | JsTypeError.

Inductive outcome (A : Type) : Type :=
  | Ok (a : A)
  | Throw (e : exn).

Arguments Ok {A} a.
Arguments Throw {A} e.

(** ** The module state *)

(** What the resolver looks at in the host: [typeof window !== 'undefined']
    and [typeof global?.process?.versions?.node !== 'undefined'].  The module
    evaluates [getCurrentPlatform] once while it is loaded (the shim at its
    end), so in a host without [window] the identifier [global] is bound in
    every state in which the module exists. *)
Record Environment : Set := {
  window_defined : bool;
  node_version_defined : bool
}.

(** A registry is a plain object ([{}]) used as a map from class names to
    [Set]s of property keys.  The map holds its own entries; what a lookup
    finds for a name without an own entry is settled by [registryGet]. *)
Abbreviation Registry := (gmap string (gset string)).

Record State : Type := {
  env : Environment;
  simulatedPlatform : SimulatedPlatformType;
  platformSpecificProperties : Registry;
  crossPlatformProperties : Registry
}.

Definition set_simulatedPlatform (v : SimulatedPlatformType) (st : State) : State :=
  {| env := env st;
     simulatedPlatform := v;
     platformSpecificProperties := platformSpecificProperties st;
     crossPlatformProperties := crossPlatformProperties st |}.

Definition set_platformSpecificProperties (r : Registry) (st : State) : State :=
  {| env := env st;
     simulatedPlatform := simulatedPlatform st;
     platformSpecificProperties := r;
     crossPlatformProperties := crossPlatformProperties st |}.

Definition set_crossPlatformProperties (r : Registry) (st : State) : State :=
  {| env := env st;
     simulatedPlatform := simulatedPlatform st;
     platformSpecificProperties := platformSpecificProperties st;
     crossPlatformProperties := r |}.

(** The state right after the module is loaded in host [e]. *)
Definition initialState (e : Environment) : State :=
  {| env := e;
     simulatedPlatform := None;
     platformSpecificProperties := ∅;
     crossPlatformProperties := ∅ |}.

(** Computations over the module state that may throw. *)
Definition M (A : Type) : Type := State → outcome A * State.

#[global] Instance M_ret : MRet M := fun A a st => (Ok a, st).

#[global] Instance M_bind : MBind M := fun A B k m st =>
  match m st with
  | (Ok a, st') => k a st'
  | (Throw e, st') => (Throw e, st')
  end.

Definition throw {A} (e : exn) : M A := fun st => (Throw e, st).

(** ** PlatformResolver *)

(** [getCurrentPlatform]: every platform name is a non-empty string, so
    [if (simulatedPlatform)] holds exactly when the override is set. *)
Definition getCurrentPlatform (st : State) : PlatformType :=
  match simulatedPlatform st with
  | Some p => p
  | None =>
      if window_defined (env st) then Target web
      else if node_version_defined (env st) then Target node
      else unknown
  end.

(** [setCurrentPlatform]: returns [simulatedPlatform !== undefined]. *)
Definition setCurrentPlatform (target : SimulatedPlatformType) (st : State)
  : bool * State :=
  let st' := set_simulatedPlatform target st in
  (bool_decide (simulatedPlatform st' ≠ None), st').

(** The message templates. *)
Definition defaultMessage (target : TargetPlatformType) : string :=
  "This code should only run in a " +:+ targetName target +:+ " environment.".

Definition methodMessage (propertyKey : string) (platform : TargetPlatformType)
    (current : PlatformType) : string :=
  "Method " +:+ propertyKey +:+ " can only be called in a "
    +:+ targetName platform +:+ " environment, current platform is "
    +:+ platformName current +:+ ".".

Definition propertyMessage (propertyKey className : string)
    (platform : TargetPlatformType) (current : PlatformType) : string :=
  "Property " +:+ propertyKey +:+ " of type " +:+ className
    +:+ " can only be accessed in a " +:+ targetName platform
    +:+ " environment, current environment is " +:+ platformName current +:+ ".".

Definition noFunctionMessage (current : PlatformType) : string :=
  "No function specified for platform: " +:+ platformName current.

(** A string is truthy when it is not empty ([msg ? msg : ...]). *)
Definition truthyString (s : string) : bool :=
  match s with
  | EmptyString => false
  | String _ _ => true
  end.

(** [assertPlatform(target, msg = undefined)] *)
Definition assertPlatform (target : TargetPlatformType) (msg : option string)
  : M unit :=
  fun st =>
    if enabled && bool_decide (getCurrentPlatform st ≠ Target target) then
      let text :=
        match msg with
        | Some m => if truthyString m then m else defaultMessage target
        | None => defaultMessage target
        end in
      (Throw (JsError text), st)
    else (Ok tt, st).

(** ** TagRegistry *)

(** The names every plain object inherits from [Object.prototype]: looking
    one of them up in a registry finds the inherited member, not
    [undefined]. *)
Definition objectPrototypeKeys : list string :=
  [ "constructor"; "hasOwnProperty"; "isPrototypeOf"; "propertyIsEnumerable";
    "toLocaleString"; "toString"; "valueOf"; "__proto__";
    "__defineGetter__"; "__defineSetter__";
    "__lookupGetter__"; "__lookupSetter__" ].

(** What [registry[className]] evaluates to. *)
Inductive lookupResult : Type :=
  | FoundSet (s : gset string)
  | FoundInherited
  | FoundNothing.

Definition registryGet (r : Registry) (className : string) : lookupResult :=
  match r !! className with
  | Some s => FoundSet s
  | None =>
      if bool_decide (className ∈ objectPrototypeKeys) then FoundInherited
      else FoundNothing
  end.

(** [if (!registry[className]) registry[className] = new Set()]: a [Set] and
    an inherited member are both truthy. *)
Definition ensureEntry (r : Registry) (className : string) : Registry :=
  match registryGet r className with
  | FoundNothing => <[className := ∅]> r
  | _ => r
  end.

(** [registry[className].add(propertyKey)] after the lazy initialisation; an
    inherited member has no [add] method. *)
Definition registryAdd (r : Registry) (className propertyKey : string)
  : outcome unit * Registry :=
  let r := ensureEntry r className in
  match registryGet r className with
  | FoundSet s => (Ok tt, <[className := {[propertyKey]} ∪ s]> r)
  | _ => (Throw JsTypeError, r)
  end.

(** [return registry[className].has(propertyKey)] after the lazy
    initialisation. *)
Definition registryHas (r : Registry) (className propertyKey : string)
  : outcome bool * Registry :=
  let r := ensureEntry r className in
  match registryGet r className with
  | FoundSet s => (Ok (bool_decide (propertyKey ∈ s)), r)
  | _ => (Throw JsTypeError, r)
  end.

Definition addToCrossPlatformProperties (className propertyKey : string)
  : M unit :=
  fun st =>
    let (res, r) := registryAdd (crossPlatformProperties st) className propertyKey in
    (res, set_crossPlatformProperties r st).

Definition addToPlatformSpecificProperties (className propertyKey : string)
  : M unit :=
  fun st =>
    let (res, r) := registryAdd (platformSpecificProperties st) className propertyKey in
    (res, set_platformSpecificProperties r st).

Definition isInPlatformSpecificProperties (className propertyKey : string)
  : M bool :=
  fun st =>
    let (res, r) := registryHas (platformSpecificProperties st) className propertyKey in
    (res, set_platformSpecificProperties r st).

Definition isInCrossPlatformProperties (className propertyKey : string)
  : M bool :=
  fun st =>
    let (res, r) := registryHas (crossPlatformProperties st) className propertyKey in
    (res, set_crossPlatformProperties r st).

(** ** Values, functions and objects *)

(** The two symbol-keyed marks: [crossPlatformSymbol] and
    [platformSpecificSymbol]. *)
Record Marks : Set := {
  crossPlatform : bool;
  platformSpecific : bool
}.

Definition noMarks : Marks :=
  {| crossPlatform := false; platformSpecific := false |}.

(** The code of a function: written by the client, or the closure both
    method guards create, which captures [platform], the property key and
    [originalMethod] (captured only to be applied, so its code stands for
    it). *)
Inductive code : Set :=
  | Native (id : nat)
  | MethodWrapper (platform : TargetPlatformType) (propertyKey : string)
      (originalMethod : code).

#[global] Instance code_eq_dec : EqDecision code.
Proof. solve_decision. Defined.

Record funobj : Set := {
  body : code;
  marks : Marks
}.

Inductive value : Set :=
  | VUndefined
  | VNull
  | VBool (b : bool)
  | VNumber (n : Z)
  | VString (s : string)
  | VObject (id : nat) (m : Marks)
  | VFunction (f : funobj).

(** [typeof v === 'function'] *)
Definition isFunction (v : value) : bool :=
  match v with
  | VFunction _ => true
  | _ => false
  end.

Definition nullish (v : value) : bool :=
  match v with
  | VUndefined | VNull => true
  | _ => false
  end.

(** [v[symbol]] as a condition: reading a property of [null] or [undefined]
    throws, a primitive has no such property. *)
Definition readMark (symbol : Marks → bool) (v : value) : M bool :=
  match v with
  | VUndefined | VNull => throw JsTypeError
  | VFunction f => mret (symbol (marks f))
  | VObject _ m => mret (symbol m)
  | VBool _ | VNumber _ | VString _ => mret false
  end.

(** Which of the two accessor pairs of the source a slot holds: the one
    [platformSpecificProperty] defines or the one [construct] defines. *)
Inductive accessorKind : Set := PropertyGuard | ClassGuard.

(** An accessor pair: what its closures capture and the variable [value]
    they share. *)
Record accessor : Set := {
  kind : accessorKind;
  platform : TargetPlatformType;
  propertyKey : string;
  className : string;
  stored : value
}.

(** A property: a data property, or an accessor property with its
    [configurable] attribute. *)
Inductive slot : Set :=
  | Data (v : value)
  | Accessor (a : accessor) (configurable : bool).

Abbreviation properties := (list (string * slot)).

Record object : Set := {
  own : properties;
  proto : properties
}.

Fixpoint lookupProperty (k : string) (l : properties) : option slot :=
  match l with
  | [] => None
  | (k', s) :: l' => if decide (k = k') then Some s else lookupProperty k l'
  end.

(** Replace the slot of [k], or create it after the existing properties. *)
Fixpoint storeProperty (k : string) (s : slot) (l : properties) : properties :=
  match l with
  | [] => [(k, s)]
  | (k', s') :: l' =>
      if decide (k = k') then (k, s) :: l' else (k', s') :: storeProperty k s l'
  end.

(** [Object.getOwnPropertyNames] *)
Definition propertyNames (l : properties) : list string := l.*1.

(** The slot a property access on [o] reaches: own first, then the
    prototype. *)
Definition findSlot (o : object) (k : string) : option slot :=
  match lookupProperty k (own o) with
  | Some s => Some s
  | None => lookupProperty k (proto o)
  end.

Definition setStored (v : value) (a : accessor) : accessor :=
  {| kind := kind a; platform := platform a; propertyKey := propertyKey a;
     className := className a; stored := v |}.

(** The read accessors.  [platformSpecificProperty] compares the platforms
    itself, [construct] goes through [assertPlatform]. *)
Definition getter (a : accessor) : M value :=
  match kind a with
  | PropertyGuard =>
      fun st =>
        if enabled && bool_decide (Target (platform a) ≠ getCurrentPlatform st) then
          (Throw (JsError (propertyMessage (propertyKey a) (className a)
                             (platform a) (getCurrentPlatform st))), st)
        else (Ok (stored a), st)
  | ClassGuard =>
      fun st =>
        (assertPlatform (platform a)
           (Some (propertyMessage (propertyKey a) (className a)
                    (platform a) (getCurrentPlatform st)));;
         mret (stored a)) st
  end.

(** The write accessors: [value = newValue], in both pairs. *)
Definition setter (a : accessor) (newValue : value) : M accessor :=
  mret (setStored newValue a).

(** [o[k]], for a name that is an own property, a property of the
    prototype, or no member of [Object.prototype] either: the lookup stops
    at the prototype. *)
Definition getProperty (o : object) (k : string) : M value :=
  match findSlot o k with
  | Some (Data v) => mret v
  | Some (Accessor a _) => getter a
  | None => mret VUndefined
  end.

(** [o[k] = v] *)
Definition setProperty (o : object) (k : string) (v : value) : M object :=
  match lookupProperty k (own o) with
  | Some (Data _) =>
      mret {| own := storeProperty k (Data v) (own o); proto := proto o |}
  | Some (Accessor a c) =>
      a' ← setter a v;
      mret {| own := storeProperty k (Accessor a' c) (own o); proto := proto o |}
  | None =>
      match lookupProperty k (proto o) with
      | Some (Accessor a c) =>
          a' ← setter a v;
          mret {| own := own o; proto := storeProperty k (Accessor a' c) (proto o) |}
      | _ =>
          mret {| own := storeProperty k (Data v) (own o); proto := proto o |}
      end
  end.

(** [Object.defineProperty(o, k, {get, set})]: an existing own property keeps
    its [configurable] attribute when it has it and refuses the change
    otherwise; a new property is not configurable. *)
Definition defineAccessor (o : object) (k : string) (a : accessor) : M object :=
  let install (c : bool) :=
    {| own := storeProperty k (Accessor a c) (own o); proto := proto o |} in
  match lookupProperty k (own o) with
  | Some (Data _) => mret (install true)
  | Some (Accessor _ c) => if c then mret (install true) else throw JsTypeError
  | None => mret (install false)
  end.

(** ** MethodGuard *)

(** [TypedPropertyDescriptor<MethodType<T, R>>]: the field the decorators
    use, a function or [undefined]. *)
Record Descriptor : Set := {
  descriptorValue : option funobj
}.

Definition markCrossPlatform (m : Marks) : Marks :=
  {| crossPlatform := true; platformSpecific := platformSpecific m |}.

(** The object behind [v] after [v[crossPlatformSymbol] = true]; the module
    is strict code, where such a write to a primitive throws. *)
Definition withCrossPlatformMark (v : value) : M value :=
  match v with
  | VFunction f => mret (VFunction {| body := body f; marks := markCrossPlatform (marks f) |})
  | VObject id m => mret (VObject id (markCrossPlatform m))
  | _ => throw JsTypeError
  end.

(** Two values refer to one object: function objects are told apart by
    their code, other objects by their identity. *)
Definition sameObject (v w : value) : bool :=
  match v, w with
  | VFunction f, VFunction g => bool_decide (body f = body g)
  | VObject i _, VObject j _ => bool_decide (i = j)
  | _, _ => false
  end.

(** What a place that held [held] shows after a change made inside the
    object [v] refers to: [v] when it holds that object. *)
Definition refreshValue (v held : value) : value :=
  if sameObject held v then v else held.

(** The value a slot holds: the value of a data property, the variable of
    an accessor pair. *)
Definition slotValue (s : slot) : value :=
  match s with
  | Data v => v
  | Accessor a _ => stored a
  end.

Definition refreshSlot (v : value) (s : slot) : slot :=
  match s with
  | Data held => Data (refreshValue v held)
  | Accessor a c => Accessor (setStored (refreshValue v (stored a)) a) c
  end.

(** The effect, seen from [o], of a change made inside the object [v]
    refers to: the mark is on the object, so every slot of [o] that holds
    it shows the change, under whatever name. *)
Definition refreshMembers (v : value) (o : object) : object :=
  {| own := prod_map id (refreshSlot v) <$> own o;
     proto := prod_map id (refreshSlot v) <$> proto o |}.

(** [crossPlatformMethod()(constructor, propertyKey, descriptor)]:
    [constructor[propertyKey][crossPlatformSymbol] = true]. *)
Definition crossPlatformMethod (constructor : object) (propertyKey : string)
  : M object :=
  member ← getProperty constructor propertyKey;
  marked ← withCrossPlatformMark member;
  mret (refreshMembers marked constructor).

(** The function object [platformSpecificMethod] puts in the descriptor. *)
Definition guardedMethod (platform : TargetPlatformType) (propertyKey : string)
    (originalMethod : funobj) : funobj :=
  {| body := MethodWrapper platform propertyKey (body originalMethod);
     marks := {| crossPlatform := false; platformSpecific := true |} |}.

(** [platformSpecificMethod(platform)(target, propertyKey, descriptor)]; the
    result is the descriptor as the decorator leaves it. *)
Definition platformSpecificMethod (platform : TargetPlatformType)
    (target : object) (propertyKey : string) (descriptor : Descriptor)
  : outcome Descriptor :=
  let originalMethod := descriptorValue descriptor in
  if negb enabled then Ok descriptor
  else
    match originalMethod with
    | None =>
        Throw (JsError
          "platformSpecificMethod decorator should be applied on methods only.")
    | Some f =>
        if crossPlatform (marks f) then Ok descriptor
        else Ok {| descriptorValue := Some (guardedMethod platform propertyKey f) |}
    end.

(** ** PropertyGuard *)

(** [crossPlatformProperty()(target, propertyKey)], where [className] is
    [target.constructor.name]. *)
Definition crossPlatformProperty (className : string) (target : object)
    (propertyKey : string) : M unit :=
  addToCrossPlatformProperties className propertyKey.

(** [platformSpecificProperty(platform)(target, propertyKey)], where
    [className] is [target.constructor.name]; the result is the target as
    the decorator leaves it. *)
Definition platformSpecificProperty (platform : TargetPlatformType)
    (className : string) (target : object) (propertyKey : string) : M object :=
  if enabled then
    value ← getProperty target propertyKey;
    isCross ← isInCrossPlatformProperties className propertyKey;
    if (isCross : bool) then mret target
    else
      addToPlatformSpecificProperties className propertyKey;;
      defineAccessor target propertyKey
        {| kind := PropertyGuard; platform := platform;
           propertyKey := propertyKey; className := className; stored := value |}
  else mret target.

(** ** ClassGuard *)

(** A constructor: its [name] and what [Reflect.construct] does with it. *)
Record Class : Type := {
  name : string;
  newInstance : list value → M object
}.

(** The function object [construct] assigns to a callable member. *)
Definition classMethodWrapper (platform : TargetPlatformType) (key : string)
    (originalMethod : funobj) : funobj :=
  {| body := MethodWrapper platform key (body originalMethod);
     marks := noMarks |}.

(** The accessor pair [construct] defines for a member whose value is [v]. *)
Definition classAccessor (platform : TargetPlatformType) (className key : string)
    (v : value) : accessor :=
  {| kind := ClassGuard; platform := platform; propertyKey := key;
     className := className; stored := v |}.

(** [isInCrossPlatformProperties(className, key) ||
    isInPlatformSpecificProperties(className, key)] *)
Definition isRegistered (className key : string) : M bool :=
  isCross ← isInCrossPlatformProperties className key;
  if (isCross : bool) then mret true
  else isInPlatformSpecificProperties className key.

(** [instance[key][crossPlatformSymbol] || instance[key][platformSpecificSymbol]] *)
Definition alreadyDecorated (instance : object) (key : string) : M bool :=
  member ← getProperty instance key;
  crossMark ← readMark crossPlatform member;
  if (crossMark : bool) then mret true
  else
    member' ← getProperty instance key;
    readMark platformSpecific member'.

(** What the loop of [construct] does with a [key] that is not registered.
    After the already-decorated test, [instance[key]] is read once for
    [typeof] and once more for the value to capture; nothing happens in
    between, so one read stands for both. *)
Definition guardMember (platform : TargetPlatformType) (className : string)
    (instance : object) (key : string) : M object :=
  decorated ← alreadyDecorated instance key;
  if (decorated : bool) then mret instance
  else
    current ← getProperty instance key;
    match current with
    | VFunction originalMethod =>
        setProperty instance key
          (VFunction (classMethodWrapper platform key originalMethod))
    | value =>
        defineAccessor instance key (classAccessor platform className key value)
    end.

(** The body of the loop of [construct] for one [key]. *)
Definition constructKey (platform : TargetPlatformType) (className : string)
    (instance : object) (key : string) : M object :=
  registered ← isRegistered className key;
  if (registered : bool) then mret instance
  else guardMember platform className instance key.

(** [for (const key of allProperties) { ... }] *)
Fixpoint constructLoop (platform : TargetPlatformType) (className : string)
    (allProperties : list string) (instance : object) : M object :=
  match allProperties with
  | [] => mret instance
  | key :: rest =>
      instance' ← constructKey platform className instance key;
      constructLoop platform className rest instance'
  end.

Definition allPropertiesOf (instance : object) : list string :=
  propertyNames (own instance) ++ propertyNames (proto instance).

(** [construct(constructor, args)] inside [platformSpecificClass(platform)]. *)
Definition construct (platform : TargetPlatformType) (constructor : Class)
    (args : list value) : M object :=
  instance ← newInstance constructor args;
  constructLoop platform (name constructor) (allPropertiesOf instance) instance.

(** [platformSpecificClass(platform)(constructor)]: the constructor that
    replaces the class, the function expression bound to [f]. *)
Definition platformSpecificClass (platform : TargetPlatformType)
    (constructor : Class) : Class :=
  if enabled then
    let original := constructor in
    {| name := "f"; newInstance := fun args => construct platform original args |}
  else constructor.

(** ** The base type that asserts at construction *)

(** The constructors of [PlatformSpecificType], [NodeJsSpecificType] and
    [WebSpecificType]: their effect, the instance having no member of its
    own. *)
Definition PlatformSpecificType (targetPlatform : TargetPlatformType) : M unit :=
  assertPlatform targetPlatform None.

Definition NodeJsSpecificType : M unit := PlatformSpecificType node.

Definition WebSpecificType : M unit := PlatformSpecificType web.

(** ** Dispatcher *)

(** [type PlatformSpecificFunctionMap = { [K in PlatformType]?: () => unknown }] *)
Record PlatformSpecificFunctionMap : Set := {
  webEntry : option funobj;
  nodeEntry : option funobj;
  unknownEntry : option funobj
}.

(** [map[p]] *)
Definition mapEntry (map : PlatformSpecificFunctionMap) (p : PlatformType)
  : option funobj :=
  match p with
  | Target web => webEntry map
  | Target node => nodeEntry map
  | unknown => unknownEntry map
  end.

(** ** Calling functions *)

Section Calls.

(** What the client's functions do when applied to a receiver and
    arguments. *)
Variable behav : nat → value → list value → M value.

(** [f.apply(this, args)].  The wrapper interpolates
    [getCurrentPlatform()] into the message before it asserts. *)
Fixpoint call (c : code) (this : value) (args : list value) : M value :=
  match c with
  | Native id => behav id this args
  | MethodWrapper platform propertyKey originalMethod =>
      fun st =>
        (assertPlatform platform
           (Some (methodMessage propertyKey platform (getCurrentPlatform st)));;
         call originalMethod this args) st
  end.

(** [v.apply(this, args)] for any value. *)
Definition callValue (v : value) (this : value) (args : list value) : M value :=
  match v with
  | VFunction f => call (body f) this args
  | _ => throw JsTypeError
  end.

(** [switchPlatform(map)] *)
Definition switchPlatform (map : PlatformSpecificFunctionMap) : M value :=
  fun st =>
    match mapEntry map (getCurrentPlatform st) with
    | None => (Throw (JsError (noFunctionMessage (getCurrentPlatform st))), st)
    | Some fn => call (body fn) VUndefined [] st
    end.

End Calls.

(** ** Convenience predicates *)

(** [isWeb] and [isNode]: [getCurrentPlatform() == 'web'] and
    [getCurrentPlatform() == 'node']. *)
Definition isWeb (st : State) : bool :=
  bool_decide (getCurrentPlatform st = Target web).

Definition isNode (st : State) : bool :=
  bool_decide (getCurrentPlatform st = Target node).

(** ** Guarded functions and guarded code *)

(** The functions [makePlatformSpecific] and [platformSpecificCode] deal
    with: a function object of the kinds above, or the arrow function
    [makePlatformSpecific] creates, which captures [platform] and
    [originalFunc]. *)
Inductive callable : Set :=
  | FromCode (c : code)
  | FunctionWrapper (platform : TargetPlatformType) (originalFunc : callable).

Definition functionMessage (functionName : string) (platform : TargetPlatformType)
    (current : PlatformType) : string :=
  "Function " +:+ functionName +:+ " can only be called in a "
    +:+ targetName platform +:+ " environment, current platform is "
    +:+ platformName current +:+ ".".

(** [makePlatformSpecific(platform, func)] *)
Definition makePlatformSpecific (platform : TargetPlatformType)
    (func : callable) : callable :=
  let originalFunc := func in
  if negb enabled then originalFunc
  else FunctionWrapper platform originalFunc.

Section Functions.

Variable behav : nat → value → list value → M value.

(** The [name] property of the client's functions. *)
Variable nameOf : nat → string.

(** [f.name]: a function expression assigned to a member ([descriptor.value =
    function ...], [instance[key] = function ...]) gets no name; the arrow
    function assigned to the parameter [func] gets the name of that
    parameter. *)
Definition funcName (f : callable) : string :=
  match f with
  | FromCode (Native id) => nameOf id
  | FromCode (MethodWrapper _ _ _) => ""
  | FunctionWrapper _ _ => "func"
  end.

(** [f.apply(this, args)].  The arrow function has no receiver of its own
    and calls [originalFunc(...args)], without a receiver. *)
Fixpoint callFunc (f : callable) (this : value) (args : list value) : M value :=
  match f with
  | FromCode c => call behav c this args
  | FunctionWrapper platform originalFunc =>
      fun st =>
        (assertPlatform platform
           (Some (functionMessage (funcName originalFunc) platform
                    (getCurrentPlatform st)));;
         callFunc originalFunc VUndefined args) st
  end.

(** [platformSpecificCode(targetPlatform, code)]: the function falls off its
    end, returning [undefined], when the platforms differ. *)
Definition platformSpecificCode (targetPlatform : TargetPlatformType)
    (code : callable) : M value :=
  fun st =>
    if negb enabled || bool_decide (getCurrentPlatform st = Target targetPlatform)
    then callFunc code VUndefined [] st
    else (Ok VUndefined, st).

End Functions.

(** * Vocabulary of the properties *)

(** [propertyKey] is in the set a registry holds for [className]. *)
Definition memberOf (r : Registry) (className propertyKey : string) : bool :=
  bool_decide (propertyKey ∈ default ∅ (r !! className)).

(** The pair is registered, as cross-platform or as platform-specific. *)
Definition registeredIn (st : State) (className propertyKey : string) : bool :=
  memberOf (crossPlatformProperties st) className propertyKey
  || memberOf (platformSpecificProperties st) className propertyKey.

(** Two states that no guard can tell apart: same host, same override, same
    registered pairs.  (Queries may add empty entries to the registries.) *)
Definition sameView (st st' : State) : Prop :=
  env st' = env st
  ∧ simulatedPlatform st' = simulatedPlatform st
  ∧ (∀ c k, memberOf (crossPlatformProperties st') c k
            = memberOf (crossPlatformProperties st) c k)
  ∧ (∀ c k, memberOf (platformSpecificProperties st') c k
            = memberOf (platformSpecificProperties st) c k).

(** The value carries one of the two marks. *)
Definition marked (v : value) : bool :=
  match v with
  | VFunction f => crossPlatform (marks f) || platformSpecific (marks f)
  | VObject _ m => crossPlatform m || platformSpecific m
  | _ => false
  end.

(** The member [key] of [after] is the retrofit of the value [v]: the one
    method wrapper around a callable [v], the one accessor pair around a
    plain [v]. *)
Definition retrofitted (platform : TargetPlatformType) (className key : string)
    (v : value) (after : object) : Prop :=
  match v with
  | VFunction f =>
      findSlot after key = Some (Data (VFunction (classMethodWrapper platform key f)))
  | _ =>
      ∃ c, findSlot after key = Some (Accessor (classAccessor platform className key v) c)
  end.

(** The slot holds the function object whose code is [c], as its value or
    as the variable of its accessor pair. *)
Definition holdsFunction (c : code) (s : slot) : bool :=
  match slotValue s with
  | VFunction g => bool_decide (body g = c)
  | _ => false
  end.


(** Every pair registered in [st] is registered in [st'], in the same
    registry. *)
Definition keepsTags (st st' : State) : Prop :=
  (∀ c k, memberOf (crossPlatformProperties st) c k = true →
          memberOf (crossPlatformProperties st') c k = true)
  ∧ (∀ c k, memberOf (platformSpecificProperties st) c k = true →
            memberOf (platformSpecificProperties st') c k = true).

(** * Sample programs *)

(** A host with the run-time version marker and no [window]. *)
Definition nodeHost : Environment :=
  {| window_defined := false; node_version_defined := true |}.

(** The module freshly loaded in [nodeHost], then [setCurrentPlatform(P)]. *)
Definition simulating (P : PlatformType) : State :=
  snd (setCurrentPlatform (Some P) (initialState nodeHost)).

(** A function of the client, without marks. *)
Definition clientFunction (id : nat) : funobj :=
  {| body := Native id; marks := noMarks |}.

(** Client functions that return their own number. *)
Definition numberedBehaviour : nat → value → list value → M value :=
  fun id _ _ => mret (VNumber (Z.of_nat id)).

(** [class Widget { title; render() {} }]: its prototype, before and after
    [@platformSpecificProperty('node') title]. *)
Definition widgetPrototype : object :=
  {| own := [("constructor", Data (VFunction (clientFunction 0)));
             ("render", Data (VFunction (clientFunction 1)))];
     proto := [] |}.

Definition guardedWidgetPrototype : object :=
  match fst (platformSpecificProperty node "Widget" widgetPrototype "title"
               (simulating (Target web))) with
  | Ok target => target
  | Throw _ => widgetPrototype
  end.

(** The state after that decoration, and the state after
    [@crossPlatformProperty() title] was applied second. *)
Definition titleSpecific : State :=
  snd (platformSpecificProperty node "Widget" widgetPrototype "title"
         (simulating (Target web))).

Definition titleTaggedTwice : State :=
  snd (crossPlatformProperty "Widget" guardedWidgetPrototype "title" titleSpecific).

(** A [Widget] with one field of its own. *)
Definition widgetInstance : object :=
  {| own := [("count", Data (VNumber 0))]; proto := own guardedWidgetPrototype |}.

(** A [Widget] whose [title] is a plain field and whose [render] carries the
    cross-platform mark, as [@crossPlatformMethod()] leaves it. *)
Definition exemptWidget : object :=
  {| own := [("title", Data (VString "draft"))];
     proto :=
       match fst (crossPlatformMethod widgetPrototype "render"
                    (simulating (Target web))) with
       | Ok target => own target
       | Throw _ => own widgetPrototype
       end |}.

(** The state after [@crossPlatformProperty() title] was applied to
    [Widget] first. *)
Definition titleExempt : State :=
  snd (crossPlatformProperty "Widget" widgetPrototype "title"
         (simulating (Target web))).

(** [class Settings { mode = 'dark' }] with [Settings.prototype.mode =
    'light'] as the default: the name [mode] is an own property of the
    instance and of its prototype. *)
Definition settingsClass : Class :=
  {| name := "Settings";
     newInstance := fun _ =>
       mret {| own := [("mode", Data (VString "dark"))];
               proto := [("constructor", Data (VFunction (clientFunction 0)));
                         ("mode", Data (VString "light"))] |} |}.

(** [class Panel { constructor() { this.handle = this.handle.bind(this) }
    handle() {} }]: the bound copy is an own property, the method a
    property of the prototype. *)
Definition panelClass : Class :=
  {| name := "Panel";
     newInstance := fun _ =>
       mret {| own := [("handle", Data (VFunction (clientFunction 2)))];
               proto := [("constructor", Data (VFunction (clientFunction 0)));
                         ("handle", Data (VFunction (clientFunction 1)))] |} |}.

(** [class Counter { count = 0 }] whose constructor hands out one cached
    instance: the first guarded construction, and what every later
    construction receives from the original constructor. *)
Definition counterInstance : object :=
  {| own := [("count", Data (VNumber 0))];
     proto := [("constructor", Data (VFunction (clientFunction 0)))] |}.

Definition cachedCounter : object :=
  match fst (constructLoop node "Counter" (allPropertiesOf counterInstance)
               counterInstance (simulating (Target web))) with
  | Ok instance => instance
  | Throw _ => counterInstance
  end.

Definition cachedCounterClass : Class :=
  {| name := "Counter"; newInstance := fun _ => mret cachedCounter |}.




(** [class Toolbar { constructor() { this.handle = this.handle.bind(this) }
    @crossPlatformMethod() handle() {} }]: the method of the prototype
    carries the cross-platform mark; the bound copy, an own property of the
    instance, is another function object and carries none. *)
Definition toolbarPrototype : object :=
  match fst (crossPlatformMethod
               {| own := [("constructor", Data (VFunction (clientFunction 0)));
                          ("handle", Data (VFunction (clientFunction 1)))];
                  proto := [] |}
               "handle" (simulating (Target web))) with
  | Ok target => target
  | Throw _ => {| own := []; proto := [] |}
  end.

Definition toolbarInstance : object :=
  {| own := [("handle", Data (VFunction (clientFunction 2)))];
     proto := own toolbarPrototype |}.

Definition toolbarClass : Class :=
  {| name := "Toolbar"; newInstance := fun _ => mret toolbarInstance |}.

(** A [Toolbar] constructed through [platformSpecificClass('node')] while
    [web] is simulated. *)
Definition guardedToolbar : object :=
  match fst (newInstance (platformSpecificClass node toolbarClass) []
               (simulating (Target web))) with
  | Ok instance => instance
  | Throw _ => toolbarInstance
  end.

(** [class Widget { render() {} }] with [Widget.prototype.draw =
    Widget.prototype.render]: one function object under two names. *)
Definition aliasedPrototype : object :=
  {| own := [("constructor", Data (VFunction (clientFunction 0)));
             ("render", Data (VFunction (clientFunction 1)));
             ("draw", Data (VFunction (clientFunction 1)))];
     proto := [] |}.

(** The prototype of [Widget] after [@crossPlatformMethod() render], and
    the state after [@crossPlatformProperty() render]. *)
Definition exemptWidgetPrototype : object :=
  {| own := proto exemptWidget; proto := [] |}.

Definition renderExempt : State :=
  snd (crossPlatformProperty "Widget" widgetPrototype "render"
         (simulating (Target web))).

(** A host with neither [window] nor the run-time version marker. *)
Definition bareHost : Environment :=
  {| window_defined := false; node_version_defined := false |}.

(** Client functions that are all named [fetchData]. *)
Definition clientName : nat → string := fun _ => "fetchData".

(** [class Report { title = 'q3'; pages = 12; print() {} }] *)
Definition reportInstance : object :=
  {| own := [("title", Data (VString "q3")); ("pages", Data (VNumber 12))];
     proto := [("constructor", Data (VFunction (clientFunction 0)));
               ("print", Data (VFunction (clientFunction 1)))] |}.

Definition reportClass : Class :=
  {| name := "Report"; newInstance := fun _ => mret reportInstance |}.

(** * Proof tools *)

Ltac unfold_monad :=
  unfold mbind, M_bind, mret, M_ret, throw in *.

(** A concrete class name is not the name of a member of
    [Object.prototype]. *)
Ltac not_inherited :=
  let H := fresh in
  intros H;
  repeat (apply elem_of_cons in H as [H|H]; [discriminate H|]);
  apply elem_of_nil in H; exact H.

(** * Properties *)

(** ** PlatformResolver *)

(** Platforms are compared through their names; the names tell them apart. *)
Lemma platformName_inj (p q : PlatformType) :
  platformName p = platformName q → p = q.
Proof.
  destruct p as [[]|], q as [[]|]; simpl; intros H;
    first [reflexivity | discriminate H].
Qed.

Lemma platformName_truthy (p : PlatformType) : truthyString (platformName p) = true.
Proof. destruct p as [[]|]; reflexivity. Qed.

Lemma getCurrentPlatform_simulated st p :
  simulatedPlatform st = Some p → getCurrentPlatform st = p.
Proof. unfold getCurrentPlatform. intros ->. reflexivity. Qed.

Lemma assertPlatform_match target msg st :
  getCurrentPlatform st = Target target → assertPlatform target msg st = (Ok tt, st).
Proof.
  intros H. unfold assertPlatform. rewrite H, bool_decide_eq_false_2; [reflexivity|].
  intros Hne. apply Hne. reflexivity.
Qed.

Lemma assertPlatform_mismatch target m st :
  getCurrentPlatform st ≠ Target target → truthyString m = true →
  assertPlatform target (Some m) st = (Throw (JsError m), st).
Proof.
  intros H Hm. unfold assertPlatform.
  rewrite bool_decide_eq_true_2 by exact H. simpl. rewrite Hm. reflexivity.
Qed.

Lemma assertPlatform_default target st :
  getCurrentPlatform st ≠ Target target →
  assertPlatform target None st = (Throw (JsError (defaultMessage target)), st).
Proof.
  intros H. unfold assertPlatform.
  rewrite bool_decide_eq_true_2 by exact H. reflexivity.
Qed.

Lemma methodMessage_truthy k t p : truthyString (methodMessage k t p) = true.
Proof. reflexivity. Qed.

Lemma propertyMessage_truthy k c t p : truthyString (propertyMessage k c t p) = true.
Proof. reflexivity. Qed.

(** C2. [getCurrentPlatform] resolves in this order: the simulated platform
    when one is set; else [web] when [window] exists; else [node] when the
    run-time version marker exists; else [unknown].  Clearing the override
    with [setCurrentPlatform(undefined)] brings back the detection of the
    host, and [setCurrentPlatform] returns [true] exactly when an override
    is active after the call. *)
Theorem getCurrentPlatform_resolution_order :
  ∀ (st : State) (target : SimulatedPlatformType) (P : PlatformType)
    (marker : bool),
    getCurrentPlatform (snd (setCurrentPlatform (Some P) st)) = P
    ∧ getCurrentPlatform
        (initialState {| window_defined := true; node_version_defined := marker |})
      = Target web
    ∧ getCurrentPlatform
        (initialState {| window_defined := false; node_version_defined := true |})
      = Target node
    ∧ getCurrentPlatform
        (initialState {| window_defined := false; node_version_defined := false |})
      = unknown
    ∧ getCurrentPlatform (snd (setCurrentPlatform None st))
      = (if window_defined (env st) then Target web
         else if node_version_defined (env st) then Target node
         else unknown)
    ∧ env (snd (setCurrentPlatform target st)) = env st
    ∧ simulatedPlatform (snd (setCurrentPlatform target st)) = target
    ∧ (fst (setCurrentPlatform target st) = true
       ↔ is_Some (simulatedPlatform (snd (setCurrentPlatform target st)))).
Proof.
  intros st target P marker. split_and!; try reflexivity.
  split.
  - simpl. intros H. apply bool_decide_eq_true_1 in H.
    destruct target as [p|]; [exists p; reflexivity | contradiction H; reflexivity].
  - simpl. intros [p Hp]. apply bool_decide_eq_true_2. rewrite Hp. discriminate.
Qed.

(** C8. Constructing a [PlatformSpecificType] (or one of its two fixed
    subtypes) asserts the target platform at once: construction throws
    exactly when the current platform differs from the declared target, and
    the error then carries the default message
    ["This code should only run in a {platform} environment."]. *)
Theorem PlatformSpecificType_asserts_at_construction :
  ∀ (st : State) (targetPlatform : TargetPlatformType),
    PlatformSpecificType targetPlatform st
    = (if decide (getCurrentPlatform st = Target targetPlatform)
       then (Ok tt, st)
       else (Throw (JsError ("This code should only run in a "
                               +:+ targetName targetPlatform +:+ " environment.")), st))
    ∧ NodeJsSpecificType st
      = (if decide (getCurrentPlatform st = Target node)
         then (Ok tt, st)
         else (Throw (JsError "This code should only run in a node environment."), st))
    ∧ WebSpecificType st
      = (if decide (getCurrentPlatform st = Target web)
         then (Ok tt, st)
         else (Throw (JsError "This code should only run in a web environment."), st)).
Proof.
  assert (Hgen : ∀ st t, PlatformSpecificType t st
                 = if decide (getCurrentPlatform st = Target t)
                   then (Ok tt, st)
                   else (Throw (JsError (defaultMessage t)), st)).
  { intros st t. unfold PlatformSpecificType.
    destruct (decide (getCurrentPlatform st = Target t)) as [Heq|Hne].
    - apply assertPlatform_match, Heq.
    - apply assertPlatform_default, Hne. }
  intros st targetPlatform. split; [|split].
  - apply Hgen.
  - apply (Hgen st node).
  - apply (Hgen st web).
Qed.

Section CallProperties.

Variable behav : nat → value → list value → M value.

Lemma call_wrapper_match platform key original this args st :
  getCurrentPlatform st = Target platform →
  call behav (MethodWrapper platform key original) this args st
  = call behav original this args st.
Proof.
  intros H. cbn [call]. unfold mbind, M_bind.
  rewrite assertPlatform_match by exact H. reflexivity.
Qed.

Lemma call_wrapper_mismatch platform key original this args st :
  getCurrentPlatform st ≠ Target platform →
  call behav (MethodWrapper platform key original) this args st
  = (Throw (JsError (methodMessage key platform (getCurrentPlatform st))), st).
Proof.
  intros H. cbn [call]. unfold mbind, M_bind.
  rewrite assertPlatform_mismatch; [reflexivity | exact H | apply methodMessage_truthy].
Qed.

(** C1. For every declared target platform [T] and every simulated
    platform [P], the method [platformSpecificMethod(T)] puts in the
    descriptor, invoked while [P] is simulated, returns what the original
    method returns when [P] is [T], and otherwise throws an error whose
    message is exactly ["Method {name} can only be called in a {platform}
    environment, current platform is {current}."]; a method [foo] declared
    for [web] and called while [node] is simulated throws ["Method foo can
    only be called in a web environment, current platform is node."]. *)
Theorem platformSpecificMethod_guards_invocation :
  ∀ (T : TargetPlatformType) (P : PlatformType) (target : object)
    (propertyKey : string) (original : code) (specific : bool)
    (st : State) (this : value) (args : list value),
    let originalMethod :=
      {| body := original;
         marks := {| crossPlatform := false; platformSpecific := specific |} |} in
    let wrapped := guardedMethod T propertyKey originalMethod in
    let now := snd (setCurrentPlatform (Some P) st) in
    platformSpecificMethod T target propertyKey
      {| descriptorValue := Some originalMethod |}
    = Ok {| descriptorValue := Some wrapped |}
    ∧ platformSpecific (marks wrapped) = true
    ∧ call behav (body wrapped) this args now
      = (if decide (P = Target T)
         then call behav original this args now
         else (Throw (JsError ("Method " +:+ propertyKey
                                 +:+ " can only be called in a " +:+ targetName T
                                 +:+ " environment, current platform is "
                                 +:+ platformName P +:+ ".")), now))
    ∧ call behav (body (guardedMethod web "foo" originalMethod)) this args
        (snd (setCurrentPlatform (Some (Target node)) st))
      = (Throw (JsError
           "Method foo can only be called in a web environment, current platform is node."),
         snd (setCurrentPlatform (Some (Target node)) st)).
Proof.
  intros T P target propertyKey original specific st this args
    originalMethod wrapped now.
  split; [reflexivity|]. split; [reflexivity|]. split.
  - subst wrapped. cbn [guardedMethod body].
    destruct (decide (P = Target T)) as [->|Hne].
    + apply call_wrapper_match. reflexivity.
    + rewrite call_wrapper_mismatch; [reflexivity|]. exact Hne.
  - cbn [guardedMethod body]. rewrite call_wrapper_mismatch; [reflexivity|].
    simpl. discriminate.
Qed.

(** C9. [switchPlatform] invokes the entry of the map for the current
    platform and returns its result when there is one, and throws an error
    with the message ["No function specified for platform: {current}"]
    when there is none; [switchPlatform({web: fn})] while [node] is
    simulated throws ["No function specified for platform: node"]. *)
Theorem switchPlatform_dispatches_or_throws :
  ∀ (map : PlatformSpecificFunctionMap) (P : PlatformType) (fn : funobj)
    (st : State),
    let now := snd (setCurrentPlatform (Some P) st) in
    switchPlatform behav map now
    = match mapEntry map P with
      | Some entry => call behav (body entry) VUndefined [] now
      | None =>
          (Throw (JsError ("No function specified for platform: "
                             +:+ platformName P)), now)
      end
    ∧ switchPlatform behav
        {| webEntry := Some fn; nodeEntry := None; unknownEntry := None |}
        (snd (setCurrentPlatform (Some (Target node)) st))
      = (Throw (JsError "No function specified for platform: node"),
         snd (setCurrentPlatform (Some (Target node)) st))
    ∧ switchPlatform behav
        {| webEntry := Some fn; nodeEntry := None; unknownEntry := None |}
        (snd (setCurrentPlatform (Some (Target web)) st))
      = call behav (body fn) VUndefined []
          (snd (setCurrentPlatform (Some (Target web)) st)).
Proof.
  intros map P fn st now. split; [|split; reflexivity].
  unfold switchPlatform.
  replace (getCurrentPlatform now) with P by reflexivity.
  destruct (mapEntry map P); reflexivity.
Qed.

End CallProperties.

(** The guarded [render] of [Widget], declared for [node]: it returns what
    the original returns while [node] is simulated and throws while [web]
    is. *)
Example guarded_render_on_node :
  call numberedBehaviour (body (guardedMethod node "render" (clientFunction 1)))
    VUndefined [] (simulating (Target node))
  = (Ok (VNumber 1), simulating (Target node)).
Proof. reflexivity. Qed.

Example guarded_render_on_web :
  fst (call numberedBehaviour (body (guardedMethod node "render" (clientFunction 1)))
         VUndefined [] (simulating (Target web)))
  = Throw (JsError
      "Method render can only be called in a node environment, current platform is web.").
Proof. reflexivity. Qed.

(** ** TagRegistry *)

Lemma registryGet_own (r : Registry) className s :
  r !! className = Some s → registryGet r className = FoundSet s.
Proof. unfold registryGet. intros ->. reflexivity. Qed.

Lemma registryGet_unseen (r : Registry) className :
  className ∉ objectPrototypeKeys → r !! className = None →
  registryGet r className = FoundNothing.
Proof.
  unfold registryGet. intros Hn ->. rewrite bool_decide_eq_false_2 by exact Hn.
  reflexivity.
Qed.

Lemma registryGet_inherited (r : Registry) className :
  className ∈ objectPrototypeKeys → r !! className = None →
  registryGet r className = FoundInherited.
Proof.
  unfold registryGet. intros Hn ->. rewrite bool_decide_eq_true_2 by exact Hn.
  reflexivity.
Qed.

Lemma ensureEntry_own (r : Registry) className s :
  r !! className = Some s → ensureEntry r className = r.
Proof. intros H. unfold ensureEntry. rewrite (registryGet_own _ _ _ H). reflexivity. Qed.

Lemma ensureEntry_unseen (r : Registry) className :
  className ∉ objectPrototypeKeys → r !! className = None →
  ensureEntry r className = <[className := ∅]> r.
Proof.
  intros Hn H. unfold ensureEntry. rewrite registryGet_unseen by assumption.
  reflexivity.
Qed.

Lemma memberOf_ensureEntry (r : Registry) className c k :
  memberOf (ensureEntry r className) c k = memberOf r c k.
Proof.
  unfold ensureEntry, registryGet.
  destruct (r !! className) as [s|] eqn:Hr; [reflexivity|].
  case_bool_decide; [reflexivity|].
  unfold memberOf. destruct (decide (className = c)) as [->|Hne].
  - rewrite lookup_insert_eq, Hr. reflexivity.
  - rewrite lookup_insert_ne by exact Hne. reflexivity.
Qed.

(** Querying a pair whose class name is usable as a key answers whether the
    pair was marked and records at most an empty entry. *)
Lemma registryHas_ordinary (r : Registry) className propertyKey :
  className ∉ objectPrototypeKeys →
  registryHas r className propertyKey
  = (Ok (memberOf r className propertyKey), ensureEntry r className).
Proof.
  intros Hn. unfold registryHas.
  destruct (r !! className) as [s|] eqn:Hr.
  - rewrite (ensureEntry_own _ _ _ Hr), (registryGet_own _ _ _ Hr).
    unfold memberOf. rewrite Hr. reflexivity.
  - rewrite ensureEntry_unseen by assumption.
    erewrite registryGet_own by apply lookup_insert_eq.
    unfold memberOf. rewrite Hr. reflexivity.
Qed.

Lemma registryHas_own (r : Registry) className propertyKey s :
  r !! className = Some s →
  registryHas r className propertyKey = (Ok (bool_decide (propertyKey ∈ s)), r).
Proof.
  intros Hr. unfold registryHas.
  rewrite (ensureEntry_own _ _ _ Hr), (registryGet_own _ _ _ Hr). reflexivity.
Qed.

Lemma registryHas_inherited (r : Registry) className propertyKey :
  className ∈ objectPrototypeKeys → r !! className = None →
  registryHas r className propertyKey = (Throw JsTypeError, r).
Proof.
  intros Hin Hr. unfold registryHas, ensureEntry.
  rewrite (registryGet_inherited _ _ Hin Hr). cbn match.
  rewrite (registryGet_inherited _ _ Hin Hr). reflexivity.
Qed.

Lemma registryAdd_ordinary (r : Registry) className propertyKey :
  className ∉ objectPrototypeKeys →
  registryAdd r className propertyKey
  = (Ok tt, <[className := {[propertyKey]} ∪ default ∅ (r !! className)]> r).
Proof.
  intros Hn. unfold registryAdd.
  destruct (r !! className) as [s|] eqn:Hr.
  - rewrite (ensureEntry_own _ _ _ Hr), (registryGet_own _ _ _ Hr). reflexivity.
  - rewrite ensureEntry_unseen by assumption.
    erewrite registryGet_own by apply lookup_insert_eq.
    rewrite insert_insert_eq. reflexivity.
Qed.

Lemma memberOf_registryAdd (r : Registry) className propertyKey c k :
  className ∉ objectPrototypeKeys →
  memberOf (registryAdd r className propertyKey).2 c k
  = memberOf r c k || bool_decide (c = className ∧ k = propertyKey).
Proof.
  intros Hn. rewrite registryAdd_ordinary by exact Hn. cbn [snd]. unfold memberOf.
  destruct (decide (className = c)) as [->|Hne].
  - rewrite lookup_insert_eq. cbn [default].
    apply eq_true_iff_eq. rewrite orb_true_iff, !bool_decide_eq_true.
    set_solver.
  - rewrite lookup_insert_ne by exact Hne.
    rewrite (bool_decide_eq_false_2 (c = className ∧ k = propertyKey)) by naive_solver.
    rewrite orb_false_r. reflexivity.
Qed.

(** For class names that are usable as keys (no member of
    [Object.prototype] bears the name): the query of an unseen type records
    an empty entry and answers [false], and marking a pair twice leaves the
    registry as marking it once does. *)
Lemma registry_ordinary_names (r : Registry) className propertyKey :
  className ∉ objectPrototypeKeys →
  (r !! className = None →
   registryHas r className propertyKey = (Ok false, <[className := ∅]> r))
  ∧ registryAdd (registryAdd r className propertyKey).2 className propertyKey
    = registryAdd r className propertyKey.
Proof.
  intros Hn. split.
  - intros Hr. rewrite registryHas_ordinary by exact Hn.
    rewrite ensureEntry_unseen by assumption. unfold memberOf. rewrite Hr.
    reflexivity.
  - rewrite !registryAdd_ordinary by exact Hn. cbn [snd].
    rewrite lookup_insert_eq, insert_insert_eq. cbn [default].
    f_equal. f_equal. set_solver.
Qed.

(** C5 (what the code does).  A type name that was never marked but is the
    name of a member of [Object.prototype], such as [toString], is found in
    the registry object as that inherited member: the lazy initialisation is
    skipped, and the query and the marking throw a [TypeError] instead of
    answering [false] or recording the pair. *)
Theorem registry_query_of_inherited_name_throws :
  ∀ (e : Environment) (propertyKey : string),
    fst (isInCrossPlatformProperties "toString" propertyKey (initialState e))
    = Throw JsTypeError
    ∧ fst (isInPlatformSpecificProperties "toString" propertyKey (initialState e))
      = Throw JsTypeError
    ∧ fst (addToCrossPlatformProperties "toString" propertyKey (initialState e))
      = Throw JsTypeError
    ∧ fst (addToPlatformSpecificProperties "toString" propertyKey (initialState e))
      = Throw JsTypeError
    ∧ fst (isInCrossPlatformProperties "Widget" propertyKey (initialState e))
      = Ok false.
Proof.
  intros e propertyKey. repeat split.
Qed.

(** ** Objects *)

Lemma lookup_store_eq k s (l : properties) :
  lookupProperty k (storeProperty k s l) = Some s.
Proof.
  induction l as [|[k' s'] l IH]; simpl.
  - rewrite decide_True by reflexivity. reflexivity.
  - destruct (decide (k = k')) as [->|Hne]; simpl.
    + rewrite decide_True by reflexivity. reflexivity.
    + rewrite decide_False by exact Hne. exact IH.
Qed.

Lemma lookup_store_ne k k' s (l : properties) :
  k ≠ k' → lookupProperty k' (storeProperty k s l) = lookupProperty k' l.
Proof.
  intros Hne. induction l as [|[k0 s0] l IH]; simpl.
  - rewrite decide_False by (intros ->; apply Hne; reflexivity). reflexivity.
  - destruct (decide (k = k0)) as [->|Hne0]; simpl.
    + rewrite !decide_False by (intros ->; apply Hne; reflexivity). reflexivity.
    + destruct (decide (k' = k0)); [reflexivity | exact IH].
Qed.

Lemma lookup_None_names k (l : properties) :
  lookupProperty k l = None ↔ k ∉ propertyNames l.
Proof.
  unfold propertyNames. induction l as [|[k' s'] l IH]; simpl.
  - split; [intros _; apply not_elem_of_nil | reflexivity].
  - rewrite not_elem_of_cons. destruct (decide (k = k')) as [->|Hne].
    + split; [discriminate | intros [H _]; contradiction H; reflexivity].
    + rewrite IH. tauto.
Qed.

Lemma lookup_Some_names k s (l : properties) :
  lookupProperty k l = Some s → k ∈ propertyNames l.
Proof.
  intros H. destruct (decide (k ∈ propertyNames l)) as [Hin|Hnin]; [exact Hin|].
  apply lookup_None_names in Hnin. congruence.
Qed.

Lemma findSlot_enumerated (o : object) k :
  k ∈ allPropertiesOf o → is_Some (findSlot o k).
Proof.
  unfold allPropertiesOf, findSlot. rewrite elem_of_app. intros H.
  destruct (lookupProperty k (own o)) as [s|] eqn:Ho; [exists s; reflexivity|].
  destruct (lookupProperty k (proto o)) as [s|] eqn:Hp; [exists s; reflexivity|].
  apply lookup_None_names in Ho, Hp. tauto.
Qed.

Lemma findSlot_store_own (o : object) k s :
  findSlot {| own := storeProperty k s (own o); proto := proto o |} k = Some s.
Proof. unfold findSlot; simpl. rewrite lookup_store_eq. reflexivity. Qed.

Lemma findSlot_store_own_ne (o : object) k k' s :
  k ≠ k' →
  findSlot {| own := storeProperty k s (own o); proto := proto o |} k' = findSlot o k'.
Proof. intros Hne. unfold findSlot; simpl. rewrite lookup_store_ne by exact Hne. reflexivity. Qed.

Lemma findSlot_store_proto_ne (o : object) k k' s :
  k ≠ k' →
  findSlot {| own := own o; proto := storeProperty k s (proto o) |} k' = findSlot o k'.
Proof. intros Hne. unfold findSlot; simpl. rewrite lookup_store_ne by exact Hne. reflexivity. Qed.

(** Reading a property leaves the module state alone. *)
Lemma getProperty_state (o : object) k st : (getProperty o k st).2 = st.
Proof.
  unfold getProperty. destruct (findSlot o k) as [[v|a c]|]; [reflexivity| |reflexivity].
  unfold getter, assertPlatform. unfold_monad.
  destruct (kind a); repeat case_match; simplify_eq; reflexivity.
Qed.

Lemma getProperty_data (o : object) k v st :
  findSlot o k = Some (Data v) → getProperty o k st = (Ok v, st).
Proof. unfold getProperty. intros ->. reflexivity. Qed.

Lemma getter_match a st :
  getCurrentPlatform st = Target (platform a) → getter a st = (Ok (stored a), st).
Proof.
  intros H. unfold getter. destruct (kind a).
  - rewrite H, bool_decide_eq_false_2; [reflexivity|]. intros Hne. apply Hne. reflexivity.
  - unfold_monad. rewrite assertPlatform_match by exact H. reflexivity.
Qed.

Lemma getter_mismatch a st :
  getCurrentPlatform st ≠ Target (platform a) →
  getter a st
  = (Throw (JsError (propertyMessage (propertyKey a) (className a) (platform a)
                       (getCurrentPlatform st))), st).
Proof.
  intros H. unfold getter. destruct (kind a).
  - rewrite bool_decide_eq_true_2; [reflexivity|]. intros Heq. apply H. symmetry. exact Heq.
  - unfold_monad.
    rewrite assertPlatform_mismatch; [reflexivity | exact H | apply propertyMessage_truthy].
Qed.

(** A write never throws and never looks at the platform. *)
Lemma setProperty_ok (o : object) k v st :
  ∃ o', setProperty o k v st = (Ok o', st)
        ∧ (∀ k', k' ≠ k → findSlot o' k' = findSlot o k')
        ∧ findSlot o' k
          = Some (match findSlot o k with
                  | Some (Accessor a c) => Accessor (setStored v a) c
                  | _ => Data v
                  end).
Proof.
  unfold setProperty, findSlot, setter. unfold_monad.
  destruct (lookupProperty k (own o)) as [[w|a c]|] eqn:Ho.
  - eexists. split; [reflexivity|]. split.
    + intros k' Hne. apply (findSlot_store_own_ne o k k'). congruence.
    + apply (findSlot_store_own o).
  - eexists. split; [reflexivity|]. split.
    + intros k' Hne. apply (findSlot_store_own_ne o k k'). congruence.
    + apply (findSlot_store_own o).
  - destruct (lookupProperty k (proto o)) as [[w|a c]|] eqn:Hp.
    + eexists. split; [reflexivity|]. split.
      * intros k' Hne. apply (findSlot_store_own_ne o k k'). congruence.
      * apply (findSlot_store_own o).
    + eexists. split; [reflexivity|]. split.
      * intros k' Hne. apply (findSlot_store_proto_ne o k k'). congruence.
      * simpl. rewrite Ho. apply lookup_store_eq.
    + eexists. split; [reflexivity|]. split.
      * intros k' Hne. apply (findSlot_store_own_ne o k k'). congruence.
      * apply (findSlot_store_own o).
Qed.

Lemma defineAccessor_inv (o o' : object) k a st st' :
  defineAccessor o k a st = (Ok o', st') →
  st' = st
  ∧ (∀ k', k' ≠ k → findSlot o' k' = findSlot o k')
  ∧ ∃ c, findSlot o' k = Some (Accessor a c).
Proof.
  unfold defineAccessor. unfold_monad.
  destruct (lookupProperty k (own o)) as [[w|old [|]]|] eqn:Ho; intros H;
    simplify_eq; (split; [reflexivity|]); split;
    try (intros k' Hne; apply (findSlot_store_own_ne o k k'); congruence);
    eexists; apply (findSlot_store_own o).
Qed.

Lemma defineAccessor_over_data (o : object) k a v st :
  findSlot o k = Some (Data v) → ∃ o', defineAccessor o k a st = (Ok o', st).
Proof.
  unfold defineAccessor, findSlot. unfold_monad. intros H.
  destruct (lookupProperty k (own o)) as [[w|old c]|] eqn:Ho; simplify_eq;
    eexists; reflexivity.
Qed.

(** ** States that guards cannot tell apart *)

Lemma sameView_refl st : sameView st st.
Proof. repeat split. Qed.

Lemma sameView_trans st1 st2 st3 :
  sameView st1 st2 → sameView st2 st3 → sameView st1 st3.
Proof.
  intros (He & Hs & Hc & Hp) (He' & Hs' & Hc' & Hp'). repeat split.
  - congruence.
  - congruence.
  - intros c k. rewrite Hc', Hc. reflexivity.
  - intros c k. rewrite Hp', Hp. reflexivity.
Qed.

Lemma sameView_platform st st' :
  sameView st st' → getCurrentPlatform st' = getCurrentPlatform st.
Proof. intros (He & Hs & _). unfold getCurrentPlatform. rewrite He, Hs. reflexivity. Qed.

Lemma sameView_registeredIn st st' c k :
  sameView st st' → registeredIn st' c k = registeredIn st c k.
Proof. intros (_ & _ & Hc & Hp). unfold registeredIn. rewrite Hc, Hp. reflexivity. Qed.

Lemma registryHas_cases (r : Registry) className propertyKey :
  registryHas r className propertyKey
  = (Ok (memberOf r className propertyKey), ensureEntry r className)
  ∨ registryHas r className propertyKey = (Throw JsTypeError, r).
Proof.
  destruct (r !! className) as [s|] eqn:Hr.
  - left. rewrite (registryHas_own _ _ _ _ Hr), (ensureEntry_own _ _ _ Hr).
    unfold memberOf. rewrite Hr. reflexivity.
  - destruct (decide (className ∈ objectPrototypeKeys)) as [Hin|Hn].
    + right. apply registryHas_inherited; assumption.
    + left. apply registryHas_ordinary, Hn.
Qed.

Lemma sameView_ensure_cross st className :
  sameView st
    (set_crossPlatformProperties (ensureEntry (crossPlatformProperties st) className) st).
Proof.
  repeat split; try reflexivity. intros c k. simpl. apply memberOf_ensureEntry.
Qed.

Lemma sameView_ensure_specific st className :
  sameView st
    (set_platformSpecificProperties
       (ensureEntry (platformSpecificProperties st) className) st).
Proof.
  repeat split; try reflexivity. intros c k. simpl. apply memberOf_ensureEntry.
Qed.

Lemma set_crossPlatformProperties_same st :
  set_crossPlatformProperties (crossPlatformProperties st) st = st.
Proof. destruct st; reflexivity. Qed.

Lemma set_platformSpecificProperties_same st :
  set_platformSpecificProperties (platformSpecificProperties st) st = st.
Proof. destruct st; reflexivity. Qed.

Lemma isInCrossPlatformProperties_cases className key st :
  ∃ st', sameView st st'
    ∧ (isInCrossPlatformProperties className key st = (Throw JsTypeError, st')
       ∨ isInCrossPlatformProperties className key st
         = (Ok (memberOf (crossPlatformProperties st) className key), st')).
Proof.
  unfold isInCrossPlatformProperties.
  destruct (registryHas_cases (crossPlatformProperties st) className key) as [H|H];
    rewrite H.
  - eexists. split; [apply sameView_ensure_cross|]. right. reflexivity.
  - eexists. split; [|left; reflexivity].
    rewrite set_crossPlatformProperties_same. apply sameView_refl.
Qed.

Lemma isInPlatformSpecificProperties_cases className key st :
  ∃ st', sameView st st'
    ∧ (isInPlatformSpecificProperties className key st = (Throw JsTypeError, st')
       ∨ isInPlatformSpecificProperties className key st
         = (Ok (memberOf (platformSpecificProperties st) className key), st')).
Proof.
  unfold isInPlatformSpecificProperties.
  destruct (registryHas_cases (platformSpecificProperties st) className key) as [H|H];
    rewrite H.
  - eexists. split; [apply sameView_ensure_specific|]. right. reflexivity.
  - eexists. split; [|left; reflexivity].
    rewrite set_platformSpecificProperties_same. apply sameView_refl.
Qed.

(** A pair marked cross-platform is found without a change to the state. *)
Lemma isInCrossPlatformProperties_marked className key st :
  memberOf (crossPlatformProperties st) className key = true →
  isInCrossPlatformProperties className key st = (Ok true, st).
Proof.
  unfold memberOf, isInCrossPlatformProperties. intros H.
  destruct (crossPlatformProperties st !! className) as [s|] eqn:Hr.
  - rewrite (registryHas_own _ _ _ _ Hr), set_crossPlatformProperties_same.
    simpl in H. rewrite H. reflexivity.
  - simpl in H. apply bool_decide_eq_true_1 in H. set_solver.
Qed.

Lemma isInCrossPlatformProperties_ordinary className key st :
  className ∉ objectPrototypeKeys →
  ∃ st', sameView st st'
    ∧ isInCrossPlatformProperties className key st
      = (Ok (memberOf (crossPlatformProperties st) className key), st').
Proof.
  intros Hn. unfold isInCrossPlatformProperties.
  rewrite registryHas_ordinary by exact Hn.
  eexists. split; [apply sameView_ensure_cross | reflexivity].
Qed.

Lemma isInPlatformSpecificProperties_ordinary className key st :
  className ∉ objectPrototypeKeys →
  ∃ st', sameView st st'
    ∧ isInPlatformSpecificProperties className key st
      = (Ok (memberOf (platformSpecificProperties st) className key), st').
Proof.
  intros Hn. unfold isInPlatformSpecificProperties.
  rewrite registryHas_ordinary by exact Hn.
  eexists. split; [apply sameView_ensure_specific | reflexivity].
Qed.

Lemma isRegistered_cases className key st :
  ∃ st', sameView st st'
    ∧ (isRegistered className key st = (Throw JsTypeError, st')
       ∨ isRegistered className key st = (Ok (registeredIn st className key), st')).
Proof.
  unfold isRegistered, registeredIn. unfold_monad.
  destruct (isInCrossPlatformProperties_cases className key st)
    as (st1 & Hv1 & [H1|H1]); rewrite H1.
  - exists st1. split; [exact Hv1 | left; reflexivity].
  - destruct (memberOf (crossPlatformProperties st) className key).
    + exists st1. split; [exact Hv1 | right; reflexivity].
    + destruct (isInPlatformSpecificProperties_cases className key st1)
        as (st2 & Hv2 & [H2|H2]); rewrite H2.
      * exists st2. split; [eapply sameView_trans; eassumption | left; reflexivity].
      * exists st2. split; [eapply sameView_trans; eassumption|]. right.
        destruct Hv1 as (_ & _ & _ & Hp). rewrite Hp. reflexivity.
Qed.

Lemma isRegistered_ordinary className key st :
  className ∉ objectPrototypeKeys →
  ∃ st', sameView st st'
    ∧ isRegistered className key st = (Ok (registeredIn st className key), st').
Proof.
  intros Hn. unfold isRegistered, registeredIn. unfold_monad.
  destruct (isInCrossPlatformProperties_ordinary className key st Hn)
    as (st1 & Hv1 & H1); rewrite H1.
  destruct (memberOf (crossPlatformProperties st) className key).
  - exists st1. split; [exact Hv1 | reflexivity].
  - destruct (isInPlatformSpecificProperties_ordinary className key st1 Hn)
      as (st2 & Hv2 & H2); rewrite H2.
    exists st2. split; [eapply sameView_trans; eassumption|].
    destruct Hv1 as (_ & _ & _ & Hp). rewrite Hp. reflexivity.
Qed.

Lemma isRegistered_marked_cross className key st :
  memberOf (crossPlatformProperties st) className key = true →
  isRegistered className key st = (Ok true, st).
Proof.
  intros H. unfold isRegistered. unfold_monad.
  rewrite isInCrossPlatformProperties_marked by exact H. reflexivity.
Qed.

(** ** ClassGuard: one member *)

(** What [construct] does with an unregistered member whose current value
    read as [v]. *)
Lemma guardMember_read T cls (inst : object) key v st :
  getProperty inst key st = (Ok v, st) →
  guardMember T cls inst key st
  = if nullish v then (Throw JsTypeError, st)
    else if marked v then (Ok inst, st)
    else match v with
         | VFunction f =>
             setProperty inst key (VFunction (classMethodWrapper T key f)) st
         | _ => defineAccessor inst key (classAccessor T cls key v) st
         end.
Proof.
  intros Hget. unfold guardMember, alreadyDecorated. unfold_monad. rewrite Hget.
  destruct v as [| | b | n | s | id m | f]; simpl; try reflexivity.
  - rewrite Hget. simpl. rewrite Hget. reflexivity.
  - rewrite Hget. simpl. rewrite Hget. reflexivity.
  - rewrite Hget. simpl. rewrite Hget. reflexivity.
  - destruct (crossPlatform m); simpl; [reflexivity|]. rewrite Hget. simpl.
    destruct (platformSpecific m); simpl; [reflexivity|]. rewrite Hget. reflexivity.
  - destruct (crossPlatform (marks f)); simpl; [reflexivity|]. rewrite Hget. simpl.
    destruct (platformSpecific (marks f)); simpl; [reflexivity|]. rewrite Hget.
    reflexivity.
Qed.

Lemma guardMember_unreadable T cls (inst : object) key e st :
  getProperty inst key st = (Throw e, st) →
  guardMember T cls inst key st = (Throw e, st).
Proof.
  intros Hget. unfold guardMember, alreadyDecorated. unfold_monad. rewrite Hget.
  reflexivity.
Qed.

Lemma getProperty_split (o : object) k st :
  (∃ v, getProperty o k st = (Ok v, st)) ∨ (∃ e, getProperty o k st = (Throw e, st)).
Proof.
  pose proof (getProperty_state o k st) as Hst.
  destruct (getProperty o k st) as [[v|e] st1]; simpl in Hst; subst st1; eauto.
Qed.

(** Whatever it does, the treatment of [key] leaves the state and the other
    members alone. *)
Lemma guardMember_frame T cls (inst inst' : object) key st st' :
  guardMember T cls inst key st = (Ok inst', st') →
  st' = st ∧ ∀ k, k ≠ key → findSlot inst' k = findSlot inst k.
Proof.
  destruct (getProperty_split inst key st) as [[v Hget]|[e Hget]].
  - rewrite (guardMember_read _ _ _ _ _ _ Hget).
    destruct (nullish v); [discriminate|].
    destruct (marked v); [intros H; simplify_eq; split; [reflexivity | tauto]|].
    assert (Hset : ∀ w, setProperty inst key w st = (Ok inst', st') →
                        st' = st ∧ ∀ k, k ≠ key → findSlot inst' k = findSlot inst k).
    { intros w Hw. destruct (setProperty_ok inst key w st) as (o' & Ho & Hfr & _).
      rewrite Ho in Hw. simplify_eq. split; [reflexivity | exact Hfr]. }
    assert (Hdef : ∀ a, defineAccessor inst key a st = (Ok inst', st') →
                        st' = st ∧ ∀ k, k ≠ key → findSlot inst' k = findSlot inst k).
    { intros a Ha. apply defineAccessor_inv in Ha as (-> & Hfr & _).
      split; [reflexivity | exact Hfr]. }
    destruct v; eauto.
  - rewrite (guardMember_unreadable _ _ _ _ _ _ Hget). discriminate.
Qed.

(** A plain or callable member that is not yet marked is retrofitted. *)
Lemma guardMember_data T cls (inst : object) key v st :
  findSlot inst key = Some (Data v) → nullish v = false → marked v = false →
  ∃ inst', guardMember T cls inst key st = (Ok inst', st)
           ∧ retrofitted T cls key v inst'
           ∧ ∀ k, k ≠ key → findSlot inst' k = findSlot inst k.
Proof.
  intros Hslot Hnull Hmark.
  rewrite (guardMember_read _ _ _ _ v _ (getProperty_data _ _ _ _ Hslot)).
  rewrite Hnull, Hmark.
  assert (Hdef : ∃ inst', defineAccessor inst key (classAccessor T cls key v) st
                          = (Ok inst', st)
                   ∧ (∃ c, findSlot inst' key
                           = Some (Accessor (classAccessor T cls key v) c))
                   ∧ ∀ k, k ≠ key → findSlot inst' k = findSlot inst k).
  { destruct (defineAccessor_over_data inst key (classAccessor T cls key v) v st Hslot)
      as [inst' Hdef].
    exists inst'. split; [exact Hdef|].
    apply defineAccessor_inv in Hdef as (_ & Hfr & Hacc). split; assumption. }
  destruct v as [| | b | n | s | id m | f]; try discriminate Hnull; try exact Hdef.
  destruct (setProperty_ok inst key (VFunction (classMethodWrapper T key f)) st)
    as (inst' & Hset & Hfr & Hk).
  exists inst'. split; [exact Hset|]. split; [|exact Hfr].
  simpl. rewrite Hk, Hslot. reflexivity.
Qed.

(** A member that carries a mark stays as it is. *)
Lemma guardMember_marked T cls (inst : object) key v st :
  findSlot inst key = Some (Data v) → marked v = true →
  guardMember T cls inst key st = (Ok inst, st).
Proof.
  intros Hslot Hmark.
  rewrite (guardMember_read _ _ _ _ v _ (getProperty_data _ _ _ _ Hslot)).
  rewrite Hmark. destruct v; try discriminate Hmark; reflexivity.
Qed.



Lemma constructKey_cases T cls (inst : object) key st :
  ∃ st1, sameView st st1
    ∧ (constructKey T cls inst key st = (Throw JsTypeError, st1)
       ∨ (registeredIn st cls key = true
          ∧ constructKey T cls inst key st = (Ok inst, st1))
       ∨ (registeredIn st cls key = false
          ∧ constructKey T cls inst key st = guardMember T cls inst key st1)).
Proof.
  unfold constructKey. unfold_monad.
  destruct (isRegistered_cases cls key st) as (st1 & Hv & [H|H]); rewrite H.
  - exists st1. split; [exact Hv | left; reflexivity].
  - exists st1. split; [exact Hv|].
    destruct (registeredIn st cls key); [right; left | right; right]; split; reflexivity.
Qed.

Lemma constructKey_ordinary T cls (inst : object) key st :
  cls ∉ objectPrototypeKeys →
  ∃ st1, sameView st st1
    ∧ constructKey T cls inst key st
      = if registeredIn st cls key then (Ok inst, st1)
        else guardMember T cls inst key st1.
Proof.
  intros Hn. unfold constructKey. unfold_monad.
  destruct (isRegistered_ordinary cls key st Hn) as (st1 & Hv & H); rewrite H.
  exists st1. split; [exact Hv|]. destruct (registeredIn st cls key); reflexivity.
Qed.

Lemma constructKey_frame T cls (inst inst' : object) key st st' :
  constructKey T cls inst key st = (Ok inst', st') →
  sameView st st' ∧ ∀ k, k ≠ key → findSlot inst' k = findSlot inst k.
Proof.
  destruct (constructKey_cases T cls inst key st) as (st1 & Hv & [H|[[_ H]|[_ H]]]);
    rewrite H; intros Hres.
  - discriminate.
  - simplify_eq. split; [exact Hv | tauto].
  - apply guardMember_frame in Hres as [-> Hfr]. split; assumption.
Qed.

(** A member registered as cross-platform is skipped, its value unread. *)
Lemma constructKey_cross_platform T cls (inst : object) key st :
  memberOf (crossPlatformProperties st) cls key = true →
  constructKey T cls inst key st = (Ok inst, st).
Proof.
  intros H. unfold constructKey. unfold_monad.
  rewrite isRegistered_marked_cross by exact H. reflexivity.
Qed.

(** ** ClassGuard: the loop over the member names *)

Lemma constructLoop_cons T cls key rest (inst : object) st :
  constructLoop T cls (key :: rest) inst st
  = match constructKey T cls inst key st with
    | (Ok inst1, st1) => constructLoop T cls rest inst1 st1
    | (Throw e, st1) => (Throw e, st1)
    end.
Proof. reflexivity. Qed.

Lemma constructLoop_frame T cls keys (inst inst' : object) st st' :
  constructLoop T cls keys inst st = (Ok inst', st') →
  sameView st st' ∧ ∀ k, k ∉ keys → findSlot inst' k = findSlot inst k.
Proof.
  revert inst st. induction keys as [|key rest IH]; intros inst st.
  - intros H. cbn in H. unfold_monad. simplify_eq. split; [apply sameView_refl | tauto].
  - rewrite constructLoop_cons.
    destruct (constructKey T cls inst key st) as [[inst1|e] st1] eqn:Hstep;
      [|discriminate].
    intros Hloop. apply constructKey_frame in Hstep as [Hv Hfr].
    apply IH in Hloop as [Hv' Hfr'].
    split; [eapply sameView_trans; eassumption|].
    intros k Hk. apply not_elem_of_cons in Hk as [Hne Hk].
    rewrite Hfr' by exact Hk. apply Hfr, Hne.
Qed.

(** The class-level pass never touches a member registered as
    cross-platform. *)
Lemma constructLoop_cross_platform T cls keys k (inst inst' : object) st st' :
  memberOf (crossPlatformProperties st) cls k = true →
  constructLoop T cls keys inst st = (Ok inst', st') →
  findSlot inst' k = findSlot inst k.
Proof.
  revert inst st. induction keys as [|key rest IH]; intros inst st Hcross.
  - intros H. cbn in H. unfold_monad. simplify_eq. reflexivity.
  - rewrite constructLoop_cons.
    destruct (decide (key = k)) as [->|Hne].
    + rewrite constructKey_cross_platform by exact Hcross. apply IH, Hcross.
    + destruct (constructKey T cls inst key st) as [[inst1|e] st1] eqn:Hstep;
        [|discriminate].
      intros Hloop. apply constructKey_frame in Hstep as [Hv Hfr].
      rewrite (IH inst1 st1); [apply Hfr; congruence | | exact Hloop].
      destruct Hv as (_ & _ & Hc & _). rewrite Hc. exact Hcross.
Qed.

(** The class-level pass never touches a member that holds a marked
    value, however often its name is visited. *)
Lemma constructLoop_marked T cls keys m v (inst inst' : object) st st' :
  findSlot inst m = Some (Data v) → marked v = true →
  constructLoop T cls keys inst st = (Ok inst', st') →
  findSlot inst' m = Some (Data v).
Proof.
  intros Hslot Hmark. revert inst st Hslot.
  induction keys as [|key rest IH]; intros inst st Hslot.
  - intros H. cbn in H. unfold_monad. simplify_eq. exact Hslot.
  - rewrite constructLoop_cons.
    destruct (constructKey T cls inst key st) as [[inst1|e] st1] eqn:Hstep;
      [|discriminate].
    intros Hloop. apply (IH inst1 st1); [|exact Hloop].
    destruct (decide (key = m)) as [->|Hne].
    + destruct (constructKey_cases T cls inst m st)
        as (st2 & _ & [H|[[_ H]|[_ H]]]); rewrite H in Hstep.
      * discriminate.
      * simplify_eq. exact Hslot.
      * rewrite (guardMember_marked _ _ _ _ v) in Hstep by assumption.
        simplify_eq. exact Hslot.
    + apply constructKey_frame in Hstep as [_ Hfr].
      rewrite Hfr by congruence. exact Hslot.
Qed.

(** ** ClassGuard: the errors a construction can throw *)









(** With a class name usable as a registry key, every name visited once and
    every unregistered member a data property that is neither [null] nor
    [undefined], the loop succeeds: it retrofits the unregistered, unmarked
    members, each once, and leaves the others as they are. *)
Lemma constructLoop_retrofits T cls keys (inst : object) st :
  cls ∉ objectPrototypeKeys → NoDup keys →
  (∀ k, k ∈ keys → registeredIn st cls k = false →
        ∃ v, findSlot inst k = Some (Data v) ∧ nullish v = false) →
  ∃ inst' st',
    constructLoop T cls keys inst st = (Ok inst', st')
    ∧ sameView st st'
    ∧ (∀ k v, k ∈ keys → registeredIn st cls k = false →
              findSlot inst k = Some (Data v) →
              if marked v then findSlot inst' k = Some (Data v)
              else retrofitted T cls k v inst')
    ∧ (∀ k, k ∉ keys ∨ registeredIn st cls k = true →
            findSlot inst' k = findSlot inst k).
Proof.
  intros Hn. revert inst st. induction keys as [|k0 rest IH]; intros inst st Hnd Hdata.
  - exists inst, st. split; [reflexivity|]. split; [apply sameView_refl|].
    split; [|reflexivity]. intros k v Hk. apply elem_of_nil in Hk. contradiction.
  - apply NoDup_cons in Hnd as [Hk0 Hnd]. rewrite constructLoop_cons.
    destruct (constructKey_ordinary T cls inst k0 st Hn) as (st1 & Hv1 & Hstep).
    assert (Hstep' : ∃ inst1,
               constructKey T cls inst k0 st = (Ok inst1, st1)
               ∧ (∀ k, k ≠ k0 → findSlot inst1 k = findSlot inst k)
               ∧ (registeredIn st cls k0 = true → inst1 = inst)
               ∧ (∀ v, registeredIn st cls k0 = false →
                       findSlot inst k0 = Some (Data v) →
                       if marked v then findSlot inst1 k0 = Some (Data v)
                       else retrofitted T cls k0 v inst1)).
    { rewrite Hstep. destruct (registeredIn st cls k0) eqn:Hreg.
      - exists inst. split_and!; [reflexivity | tauto | tauto | discriminate].
      - destruct (Hdata k0) as (v & Hslot & Hnull);
          [apply elem_of_cons; left; reflexivity | exact Hreg |].
        destruct (marked v) eqn:Hmark.
        + rewrite (guardMember_marked _ _ _ _ v) by assumption.
          exists inst. split_and!; [reflexivity | tauto | discriminate |].
          intros v' _ Hv'. rewrite Hslot in Hv'. simplify_eq. rewrite Hmark. exact Hslot.
        + destruct (guardMember_data T cls inst k0 v st1 Hslot Hnull Hmark)
            as (inst1 & H1 & Hretro & Hfr).
          exists inst1. split_and!; [exact H1 | exact Hfr | discriminate |].
          intros v' _ Hv'. rewrite Hslot in Hv'. simplify_eq. rewrite Hmark. exact Hretro. }
    destruct Hstep' as (inst1 & H1 & Hfr1 & Hreg1 & Hretro1). rewrite H1.
    destruct (IH inst1 st1 Hnd) as (inst' & st' & Hloop & Hv' & Hretro & Hfr).
    { intros k Hk Hreg. rewrite (sameView_registeredIn _ _ _ _ Hv1) in Hreg.
      rewrite Hfr1 by (intros ->; contradiction).
      apply Hdata; [apply elem_of_cons; right; exact Hk | exact Hreg]. }
    exists inst', st'. split; [exact Hloop|].
    split; [eapply sameView_trans; eassumption|]. split.
    + intros k v Hk Hreg Hslot. apply elem_of_cons in Hk as [->|Hk].
      * specialize (Hretro1 v Hreg Hslot).
        assert (Hsame : findSlot inst' k0 = findSlot inst1 k0)
          by (apply Hfr; left; exact Hk0).
        destruct (marked v); [congruence|].
        unfold retrofitted in *. destruct v; rewrite Hsame; exact Hretro1.
      * apply Hretro; [exact Hk | | ].
        -- rewrite (sameView_registeredIn _ _ _ _ Hv1). exact Hreg.
        -- rewrite Hfr1 by (intros ->; contradiction). exact Hslot.
    + intros k Hk. destruct (decide (k = k0)) as [->|Hne].
      * destruct Hk as [Hk|Hk]; [contradiction Hk; apply elem_of_cons; left; reflexivity|].
        rewrite Hfr by (left; exact Hk0). rewrite (Hreg1 Hk). reflexivity.
      * rewrite Hfr; [apply Hfr1, Hne|].
        destruct Hk as [Hk|Hk].
        -- left. intros Hin. apply Hk. apply elem_of_cons. right. exact Hin.
        -- right. rewrite (sameView_registeredIn _ _ _ _ Hv1). exact Hk.
Qed.

(** ** PropertyGuard *)

(** The property guard registers the pair and installs its accessor pair,
    unless the pair is registered as cross-platform. *)
Lemma platformSpecificProperty_installs T cls (target : object) k v st :
  cls ∉ objectPrototypeKeys →
  memberOf (crossPlatformProperties st) cls k = false →
  getProperty target k st = (Ok v, st) →
  (∀ a, lookupProperty k (own target) ≠ Some (Accessor a false)) →
  ∃ target' st' c,
    platformSpecificProperty T cls target k st = (Ok target', st')
    ∧ findSlot target' k
      = Some (Accessor {| kind := PropertyGuard; platform := T; propertyKey := k;
                          className := cls; stored := v |} c)
    ∧ memberOf (platformSpecificProperties st') cls k = true.
Proof.
  intros Hn Hcross Hget Hconf. unfold platformSpecificProperty. cbn [enabled].
  unfold_monad. rewrite Hget.
  destruct (isInCrossPlatformProperties_ordinary cls k st Hn) as (st1 & Hv1 & H1).
  rewrite H1, Hcross.
  unfold addToPlatformSpecificProperties.
  rewrite registryAdd_ordinary by exact Hn.
  unfold defineAccessor. unfold_monad.
  destruct (lookupProperty k (own target)) as [[w|old [|]]|] eqn:Hown.
  3: { exfalso. apply (Hconf old). reflexivity. }
  all: do 3 eexists; (split; [reflexivity|]);
    (split; [apply (findSlot_store_own target)|]);
    simpl; unfold memberOf; rewrite lookup_insert_eq; simpl;
    apply bool_decide_eq_true_2; set_solver.
Qed.

(** C3. For every platform-guarded property, be its accessor pair the one the
    property guard defines or the one the class guard defines, and for every
    simulated platform: a write succeeds and stores the new value whatever
    the platform; a read throws the mismatch error when the simulated
    platform differs from the declared one, and returns the value stored
    last when they are equal. *)
Theorem guarded_property_write_open_read_gated :
  ∀ (o : object) (k : string) (a : accessor) (c : bool) (newValue : value)
    (Pw Pr : PlatformType) (st st' : State),
    findSlot o k = Some (Accessor a c) →
    let writing := snd (setCurrentPlatform (Some Pw) st) in
    let reading := snd (setCurrentPlatform (Some Pr) st') in
    ∃ o',
      setProperty o k newValue writing = (Ok o', writing)
      ∧ getProperty o' k reading
        = (if decide (Pr = Target (platform a))
           then (Ok newValue, reading)
           else (Throw (JsError (propertyMessage (propertyKey a) (className a)
                                   (platform a) Pr)), reading))
      ∧ getProperty o k reading
        = (if decide (Pr = Target (platform a))
           then (Ok (stored a), reading)
           else (Throw (JsError (propertyMessage (propertyKey a) (className a)
                                   (platform a) Pr)), reading)).
Proof.
  intros o k a c newValue Pw Pr st st' Hslot writing reading.
  assert (Hread : ∀ b, getter b reading
            = if decide (Pr = Target (platform b))
              then (Ok (stored b), reading)
              else (Throw (JsError (propertyMessage (propertyKey b) (className b)
                                      (platform b) Pr)), reading)).
  { intros b. destruct (decide (Pr = Target (platform b))) as [Heq|Hne].
    - apply getter_match. rewrite <- Heq. reflexivity.
    - rewrite getter_mismatch; [reflexivity | exact Hne]. }
  destruct (setProperty_ok o k newValue writing) as (o' & Hset & _ & Hk).
  exists o'. split; [exact Hset|]. split.
  - unfold getProperty. rewrite Hk, Hslot. apply (Hread (setStored newValue a)).
  - unfold getProperty. rewrite Hslot. apply Hread.
Qed.

Lemma guarded_property_write_open_read_gated_witness :
  (∃ o',
     setProperty widgetInstance "title" (VString "report")
       (snd (setCurrentPlatform (Some (Target web)) (initialState nodeHost)))
     = (Ok o', snd (setCurrentPlatform (Some (Target web)) (initialState nodeHost)))
     ∧ getProperty o' "title"
         (snd (setCurrentPlatform (Some (Target web)) (initialState nodeHost)))
       = (Throw (JsError
            "Property title of type Widget can only be accessed in a node environment, current environment is web."),
          snd (setCurrentPlatform (Some (Target web)) (initialState nodeHost)))
     ∧ getProperty widgetInstance "title"
         (snd (setCurrentPlatform (Some (Target web)) (initialState nodeHost)))
       = (Throw (JsError
            "Property title of type Widget can only be accessed in a node environment, current environment is web."),
          snd (setCurrentPlatform (Some (Target web)) (initialState nodeHost))))
  ∧ (∃ o',
       setProperty cachedCounter "count" (VNumber 5)
         (snd (setCurrentPlatform (Some (Target web)) (initialState nodeHost)))
       = (Ok o', snd (setCurrentPlatform (Some (Target web)) (initialState nodeHost)))
       ∧ getProperty o' "count"
           (snd (setCurrentPlatform (Some (Target node)) (initialState nodeHost)))
         = (Ok (VNumber 5),
            snd (setCurrentPlatform (Some (Target node)) (initialState nodeHost)))
       ∧ getProperty cachedCounter "count"
           (snd (setCurrentPlatform (Some (Target node)) (initialState nodeHost)))
         = (Ok (VNumber 0),
            snd (setCurrentPlatform (Some (Target node)) (initialState nodeHost)))).
Proof.
  split.
  - exact (guarded_property_write_open_read_gated widgetInstance "title"
             {| kind := PropertyGuard; platform := node; propertyKey := "title";
                className := "Widget"; stored := VUndefined |} false
             (VString "report") (Target web) (Target web)
             (initialState nodeHost) (initialState nodeHost) eq_refl).
  - exact (guarded_property_write_open_read_gated cachedCounter "count"
             (classAccessor node "Counter" "count" (VNumber 0)) true
             (VNumber 5) (Target web) (Target node)
             (initialState nodeHost) (initialState nodeHost) eq_refl).
Defined.

(** ** Precedence of the cross-platform tag *)

Lemma crossPlatformProperty_registers cls (target : object) k st :
  cls ∉ objectPrototypeKeys →
  ∃ st', crossPlatformProperty cls target k st = (Ok tt, st')
         ∧ memberOf (crossPlatformProperties st') cls k = true.
Proof.
  intros Hn. unfold crossPlatformProperty, addToCrossPlatformProperties.
  rewrite registryAdd_ordinary by exact Hn. eexists. split; [reflexivity|].
  simpl. unfold memberOf. rewrite lookup_insert_eq. simpl.
  apply bool_decide_eq_true_2. set_solver.
Qed.

Lemma setStored_same a : setStored (stored a) a = a.
Proof. destruct a; reflexivity. Qed.

Lemma lookupProperty_refresh v k (l : properties) :
  lookupProperty k (prod_map id (refreshSlot v) <$> l)
  = refreshSlot v <$> lookupProperty k l.
Proof.
  induction l as [|[k' s] l IH]; simpl; [reflexivity|].
  destruct (decide (k = k')); [reflexivity | exact IH].
Qed.

Lemma propertyNames_refresh v (l : properties) :
  propertyNames (prod_map id (refreshSlot v) <$> l) = propertyNames l.
Proof.
  unfold propertyNames. induction l as [|[k s] l IH]; simpl; [reflexivity|].
  f_equal. exact IH.
Qed.

Lemma findSlot_refresh v (o : object) k :
  findSlot (refreshMembers v o) k = refreshSlot v <$> findSlot o k.
Proof.
  unfold findSlot, refreshMembers; simpl. rewrite !lookupProperty_refresh.
  destruct (lookupProperty k (own o)); reflexivity.
Qed.

Lemma refreshValue_idem v held :
  refreshValue v (refreshValue v held) = refreshValue v held.
Proof.
  unfold refreshValue. destruct (sameObject held v) eqn:H; [|rewrite H; reflexivity].
  destruct (sameObject v v); reflexivity.
Qed.

Lemma refreshSlot_idem v s : refreshSlot v (refreshSlot v s) = refreshSlot v s.
Proof.
  destruct s as [held|a c]; simpl; rewrite refreshValue_idem; reflexivity.
Qed.

Lemma refreshMembers_idem v (o : object) :
  refreshMembers v (refreshMembers v o) = refreshMembers v o.
Proof.
  assert (H : ∀ l : properties,
            prod_map id (refreshSlot v) <$> (prod_map id (refreshSlot v) <$> l)
            = prod_map id (refreshSlot v) <$> l).
  { induction l as [|[k s] l IH]; [reflexivity|].
    rewrite !fmap_cons, IH. unfold prod_map at 1 2; simpl.
    rewrite refreshSlot_idem. reflexivity. }
  unfold refreshMembers. cbn [own proto]. rewrite !H. reflexivity.
Qed.

(** A slot that holds another object is as it was. *)
Lemma refreshSlot_other v s :
  sameObject (slotValue s) v = false → refreshSlot v s = s.
Proof.
  destruct s as [held|a c]; simpl; unfold refreshValue; intros ->;
    [reflexivity | rewrite setStored_same; reflexivity].
Qed.

(** [crossPlatformMethod] puts the cross-platform mark on the function the
    member holds. *)
Lemma crossPlatformMethod_run (target : object) k f st :
  findSlot target k = Some (Data (VFunction f)) →
  crossPlatformMethod target k st
  = (Ok (refreshMembers
           (VFunction {| body := body f; marks := markCrossPlatform (marks f) |})
           target), st).
Proof.
  intros Hslot. unfold crossPlatformMethod. unfold_monad.
  rewrite (getProperty_data _ _ _ _ Hslot). reflexivity.
Qed.

Lemma crossPlatformMethod_marks (target : object) k f st :
  findSlot target k = Some (Data (VFunction f)) →
  ∃ target', crossPlatformMethod target k st = (Ok target', st)
    ∧ findSlot target' k
      = Some (Data (VFunction {| body := body f;
                                 marks := markCrossPlatform (marks f) |})).
Proof.
  intros Hslot. eexists. split; [apply crossPlatformMethod_run, Hslot|].
  rewrite findSlot_refresh, Hslot. cbn [fmap option_fmap option_map refreshSlot].
  unfold refreshValue. cbn [sameObject body].
  rewrite bool_decide_eq_true_2 by reflexivity. reflexivity.
Qed.

(** C4 (counterexample).  The platform-specific tag is requested for
    [("Widget", "title")] first and the cross-platform tag second, while
    [web] is simulated: both requests succeed and the pair is registered as
    cross-platform, yet the accessor pair the first request installed is
    still there, and reading the member throws the mismatch error, on the
    prototype and through an instance; the class-level guard leaves that
    accessor pair where it is. *)
Lemma cross_platform_tag_second_does_not_win :
  fst (platformSpecificProperty node "Widget" widgetPrototype "title"
         (simulating (Target web)))
  = Ok guardedWidgetPrototype
  ∧ fst (crossPlatformProperty "Widget" guardedWidgetPrototype "title" titleSpecific)
    = Ok tt
  ∧ memberOf (crossPlatformProperties titleTaggedTwice) "Widget" "title" = true
  ∧ memberOf (platformSpecificProperties titleTaggedTwice) "Widget" "title" = true
  ∧ getCurrentPlatform titleTaggedTwice = Target web
  ∧ findSlot widgetInstance "title"
    = Some (Accessor {| kind := PropertyGuard; platform := node;
                        propertyKey := "title"; className := "Widget";
                        stored := VUndefined |} false)
  ∧ fst (getProperty guardedWidgetPrototype "title" titleTaggedTwice)
    = Throw (JsError
        "Property title of type Widget can only be accessed in a node environment, current environment is web.")
  ∧ fst (getProperty widgetInstance "title" titleTaggedTwice)
    = Throw (JsError
        "Property title of type Widget can only be accessed in a node environment, current environment is web.")
  ∧ fst (newInstance
           (platformSpecificClass node
              {| name := "Widget"; newInstance := fun _ => mret widgetInstance |})
           [] titleTaggedTwice)
    = Ok {| own := [("count", Accessor (classAccessor node "Widget" "count"
                                          (VNumber 0)) true);
                    ("constructor",
                     Data (VFunction (classMethodWrapper node "constructor"
                                        (clientFunction 0))));
                    ("render",
                     Data (VFunction (classMethodWrapper node "render"
                                        (clientFunction 1))))];
            proto := own guardedWidgetPrototype |}.
Proof. split_and!; vm_compute; reflexivity. Qed.

Section CrossPlatformTag.

Variable behav : nat → value → list value → M value.

(** C4 (amended).  A cross-platform tag that is requested before the
    platform-specific tag of the same kind wins.  Property tags live in the
    registry under the type name: [crossPlatformProperty] records the pair,
    and with the pair recorded a later [platformSpecificProperty] only reads
    the member, installing no guard and recording nothing, and the
    class-level guard of the class of that name skips the member without
    reading it, so that the member comes out of a guarded construction as
    the property it was and a plain member reads as its value on every
    platform.  Method tags are a
    mark on the function object: [crossPlatformMethod] marks the function
    the member holds; a later [platformSpecificMethod] whose descriptor
    holds that function leaves it unwrapped, and the class-level guard
    leaves in place a member that holds that function, however often it
    visits the name, so that invoking the member is calling the marked
    function itself, with no platform check, on every platform. *)
Theorem cross_platform_tag_first_wins :
  ∀ (T : TargetPlatformType) (cls k m : string) (st0 st : State)
    (target inst holder : object) (keys : list string) (f : funobj)
    (this : value) (args : list value),
    let exempt := {| body := body f; marks := markCrossPlatform (marks f) |} in
    (cls ∉ objectPrototypeKeys →
     ∃ st1, crossPlatformProperty cls target k st0 = (Ok tt, st1)
            ∧ memberOf (crossPlatformProperties st1) cls k = true)
    ∧ (memberOf (crossPlatformProperties st) cls k = true →
       platformSpecificProperty T cls target k st
       = (match fst (getProperty target k st) with
          | Ok _ => Ok target
          | Throw e => Throw e
          end, st)
       ∧ constructKey T cls inst k st = (Ok inst, st)
       ∧ ∀ inst' st',
           constructLoop T cls keys inst st = (Ok inst', st') →
           findSlot inst' k = findSlot inst k
           ∧ ∀ v reading, findSlot inst k = Some (Data v) →
                          getProperty inst' k reading = (Ok v, reading))
    ∧ (findSlot holder m = Some (Data (VFunction f)) →
       ∃ holder', crossPlatformMethod holder m st0 = (Ok holder', st0)
                  ∧ findSlot holder' m = Some (Data (VFunction exempt)))
    ∧ platformSpecificMethod T target m {| descriptorValue := Some exempt |}
      = Ok {| descriptorValue := Some exempt |}
    ∧ (findSlot inst m = Some (Data (VFunction exempt)) →
       guardMember T cls inst m st = (Ok inst, st)
       ∧ ∀ inst' st',
           constructLoop T cls keys inst st = (Ok inst', st') →
           findSlot inst' m = Some (Data (VFunction exempt))
           ∧ ∀ calling,
               getProperty inst' m calling = (Ok (VFunction exempt), calling)
               ∧ callValue behav (VFunction exempt) this args calling
                 = call behav (body f) this args calling).
Proof.
  intros T cls k m st0 st target inst holder keys f this args exempt.
  split_and!.
  - intros Hn. apply crossPlatformProperty_registers, Hn.
  - intros Hcross. split_and!.
    + unfold platformSpecificProperty. cbn [enabled]. unfold_monad.
      pose proof (getProperty_state target k st) as Hst.
      destruct (getProperty target k st) as [[v|e] st1]; simpl in Hst; subst st1;
        [|reflexivity].
      rewrite isInCrossPlatformProperties_marked by exact Hcross. reflexivity.
    + apply constructKey_cross_platform, Hcross.
    + intros inst' st' Hloop.
      pose proof (constructLoop_cross_platform _ _ _ _ _ _ _ _ Hcross Hloop) as Hsame.
      split; [exact Hsame|]. intros v reading Hslot.
      apply getProperty_data. rewrite Hsame. exact Hslot.
  - intros Hslot. apply crossPlatformMethod_marks, Hslot.
  - reflexivity.
  - intros Hslot. split.
    + apply (guardMember_marked _ _ _ _ _ _ Hslot). reflexivity.
    + intros inst' st' Hloop.
      assert (Hkeep : findSlot inst' m = Some (Data (VFunction exempt)))
        by (eapply constructLoop_marked; [exact Hslot | reflexivity | exact Hloop]).
      split; [exact Hkeep|]. intros calling.
      split; [apply getProperty_data, Hkeep | reflexivity].
Qed.

End CrossPlatformTag.

Lemma cross_platform_tag_first_wins_witness :
  (∃ st1, crossPlatformProperty "Widget" widgetPrototype "title"
            (simulating (Target web)) = (Ok tt, st1)
          ∧ memberOf (crossPlatformProperties st1) "Widget" "title" = true)
  ∧ platformSpecificProperty node "Widget" widgetPrototype "title" titleExempt
    = (Ok widgetPrototype, titleExempt)
  ∧ constructKey node "Widget" exemptWidget "title" titleExempt
    = (Ok exemptWidget, titleExempt)
  ∧ (∃ holder', crossPlatformMethod widgetPrototype "render"
                  (simulating (Target web)) = (Ok holder', simulating (Target web))
                ∧ findSlot holder' "render"
                  = Some (Data (VFunction
                                  {| body := Native 1;
                                     marks := {| crossPlatform := true;
                                                 platformSpecific := false |} |})))
  ∧ guardMember node "Widget" exemptWidget "render" titleExempt
    = (Ok exemptWidget, titleExempt)
  ∧ ∃ inst' st',
      constructLoop node "Widget" (allPropertiesOf exemptWidget) exemptWidget
        titleExempt = (Ok inst', st')
      ∧ getProperty inst' "title" (simulating (Target web))
        = (Ok (VString "draft"), simulating (Target web))
      ∧ findSlot inst' "render"
        = Some (Data (VFunction
                        {| body := Native 1;
                           marks := {| crossPlatform := true;
                                       platformSpecific := false |} |}))
      ∧ callValue numberedBehaviour
          (VFunction {| body := Native 1;
                        marks := {| crossPlatform := true;
                                    platformSpecific := false |} |})
          VUndefined [] (simulating (Target web))
        = (Ok (VNumber 1), simulating (Target web)).
Proof.
  destruct (cross_platform_tag_first_wins numberedBehaviour node "Widget" "title"
              "render" (simulating (Target web)) titleExempt widgetPrototype
              exemptWidget widgetPrototype (allPropertiesOf exemptWidget)
              (clientFunction 1) VUndefined [])
    as (Hrequest & Hproperty & Hmark & _ & Hmethod).
  destruct (Hproperty eq_refl) as (Hlater & Hkey & Hplain).
  destruct (Hmethod eq_refl) as (Hguard & Hkept).
  split; [apply Hrequest; not_inherited|].
  split; [exact Hlater|]. split; [exact Hkey|].
  split; [exact (Hmark eq_refl)|]. split; [exact Hguard|].
  destruct (constructLoop node "Widget" (allPropertiesOf exemptWidget) exemptWidget
              titleExempt) as [[inst'|e] st'] eqn:Hrun;
    [|vm_compute in Hrun; discriminate Hrun].
  exists inst', st'. split; [reflexivity|].
  split; [exact (proj2 (Hplain inst' st' eq_refl) (VString "draft")
                   (simulating (Target web)) eq_refl)|].
  destruct (Hkept inst' st' eq_refl) as (Hslot & Hcall).
  split; [exact Hslot|].
  exact (proj2 (Hcall (simulating (Target web)))).
Defined.

(** The mark is on the function object, not on the name.  [Toolbar] marks
    its method [handle] as cross-platform and binds it in its constructor:
    the own property [handle] holds the bound copy, which carries no mark.
    The class-level guard wraps that copy (twice, the name being visited
    twice), and calling [handle] on an instance throws while [web] is
    simulated. *)
Example cross_platform_mark_does_not_cover_bound_copy :
  lookupProperty "handle" (proto toolbarInstance)
  = Some (Data (VFunction {| body := Native 1;
                             marks := {| crossPlatform := true;
                                         platformSpecific := false |} |}))
  ∧ findSlot toolbarInstance "handle" = Some (Data (VFunction (clientFunction 2)))
  ∧ fst (newInstance (platformSpecificClass node toolbarClass) []
           (simulating (Target web)))
    = Ok guardedToolbar
  ∧ findSlot guardedToolbar "handle"
    = Some (Data (VFunction
                    {| body := MethodWrapper node "handle"
                                 (MethodWrapper node "handle" (Native 2));
                       marks := noMarks |}))
  ∧ fst (callValue numberedBehaviour
           (VFunction {| body := MethodWrapper node "handle"
                                   (MethodWrapper node "handle" (Native 2));
                         marks := noMarks |})
           VUndefined [] (simulating (Target web)))
    = Throw (JsError
        "Method handle can only be called in a node environment, current platform is web.").
Proof. split_and!; vm_compute; reflexivity. Qed.

(** The two kinds of tag do not stand in for each other.
    [platformSpecificMethod] does not consult the registry: with
    [("Widget", "render")] registered as cross-platform it wraps [render],
    and the wrapper throws while [web] is simulated.
    [platformSpecificProperty] does not look at the mark: it guards the
    member that holds the marked [render], and reading it throws while
    [web] is simulated. *)
Example cross_platform_tags_do_not_cross_kinds :
  memberOf (crossPlatformProperties renderExempt) "Widget" "render" = true
  ∧ platformSpecificMethod node widgetPrototype "render"
      {| descriptorValue := Some (clientFunction 1) |}
    = Ok {| descriptorValue := Some (guardedMethod node "render" (clientFunction 1)) |}
  ∧ fst (call numberedBehaviour
           (body (guardedMethod node "render" (clientFunction 1)))
           VUndefined [] renderExempt)
    = Throw (JsError
        "Method render can only be called in a node environment, current platform is web.")
  ∧ findSlot exemptWidgetPrototype "render"
    = Some (Data (VFunction {| body := Native 1;
                               marks := {| crossPlatform := true;
                                           platformSpecific := false |} |}))
  ∧ ∃ target' st',
      platformSpecificProperty node "Widget" exemptWidgetPrototype "render"
        (simulating (Target web)) = (Ok target', st')
      ∧ fst (getProperty target' "render" st')
        = Throw (JsError
            "Property render of type Widget can only be accessed in a node environment, current environment is web.").
Proof.
  split_and!; try (vm_compute; reflexivity).
  do 2 eexists. split; vm_compute; reflexivity.
Qed.

(** ** ClassGuard: the guarded constructor *)

Lemma guarded_constructor_runs_loop T (constructor : Class) args st inst st1 :
  newInstance constructor args st = (Ok inst, st1) →
  newInstance (platformSpecificClass T constructor) args st
  = constructLoop T (name constructor) (allPropertiesOf inst) inst st1.
Proof.
  intros Hnew. cbn [platformSpecificClass enabled newInstance]. unfold construct.
  unfold_monad. rewrite Hnew. reflexivity.
Qed.

(** Where every member name is enumerated once, the class name is usable as
    a registry key and every unregistered member is a data property that is
    neither [null] nor [undefined], the guarded constructor returns an
    instance on every platform: its unregistered, unmarked members are each
    retrofitted once, the others are as the original constructor left
    them. *)
Lemma guarded_constructor_retrofits T (constructor : Class) args st inst st1 :
  name constructor ∉ objectPrototypeKeys →
  newInstance constructor args st = (Ok inst, st1) →
  NoDup (allPropertiesOf inst) →
  (∀ k, k ∈ allPropertiesOf inst → registeredIn st1 (name constructor) k = false →
        ∃ v, findSlot inst k = Some (Data v) ∧ nullish v = false) →
  ∃ inst' st',
    newInstance (platformSpecificClass T constructor) args st = (Ok inst', st')
    ∧ sameView st1 st'
    ∧ (∀ k v, k ∈ allPropertiesOf inst →
              registeredIn st1 (name constructor) k = false →
              findSlot inst k = Some (Data v) →
              if marked v then findSlot inst' k = Some (Data v)
              else retrofitted T (name constructor) k v inst')
    ∧ (∀ k, k ∉ allPropertiesOf inst ∨ registeredIn st1 (name constructor) k = true →
            findSlot inst' k = findSlot inst k).
Proof.
  intros Hn Hnew Hnd Hdata.
  rewrite (guarded_constructor_runs_loop _ _ _ _ _ _ Hnew).
  apply constructLoop_retrofits; assumption.
Qed.

(** A retrofitted plain member reads as its value on the platform of the
    class and throws the mismatch error elsewhere. *)
Lemma retrofitted_plain_read T cls k v (inst : object) st :
  isFunction v = false → retrofitted T cls k v inst →
  getProperty inst k st
  = if decide (getCurrentPlatform st = Target T) then (Ok v, st)
    else (Throw (JsError (propertyMessage k cls T (getCurrentPlatform st))), st).
Proof.
  intros Hfun Hretro.
  assert (Hacc : ∃ c, findSlot inst k = Some (Accessor (classAccessor T cls k v) c))
    by (destruct v; first [exact Hretro | discriminate Hfun]).
  destruct Hacc as [c Hslot]. unfold getProperty. rewrite Hslot.
  destruct (decide (getCurrentPlatform st = Target T)) as [Heq|Hne].
  - apply (getter_match (classAccessor T cls k v)), Heq.
  - apply (getter_mismatch (classAccessor T cls k v)), Hne.
Qed.

(** Under the conditions of [guarded_constructor_retrofits] the platform is
    not looked at during construction; it is looked at when a retrofitted
    member is read. *)
Lemma guarded_constructor_defers_platform_check T (constructor : Class) args
    st inst st1 :
  name constructor ∉ objectPrototypeKeys →
  newInstance constructor args st = (Ok inst, st1) →
  NoDup (allPropertiesOf inst) →
  (∀ k, k ∈ allPropertiesOf inst → registeredIn st1 (name constructor) k = false →
        ∃ v, findSlot inst k = Some (Data v) ∧ nullish v = false) →
  ∃ inst' st',
    newInstance (platformSpecificClass T constructor) args st = (Ok inst', st')
    ∧ getCurrentPlatform st' = getCurrentPlatform st1
    ∧ ∀ k v reading,
        k ∈ allPropertiesOf inst →
        registeredIn st1 (name constructor) k = false →
        findSlot inst k = Some (Data v) → marked v = false → isFunction v = false →
        getProperty inst' k reading
        = if decide (getCurrentPlatform reading = Target T) then (Ok v, reading)
          else (Throw (JsError (propertyMessage k (name constructor) T
                                  (getCurrentPlatform reading))), reading).
Proof.
  intros Hn Hnew Hnd Hdata.
  destruct (guarded_constructor_retrofits T constructor args st inst st1
              Hn Hnew Hnd Hdata) as (inst' & st' & Hrun & Hview & Hretro & _).
  exists inst', st'. split; [exact Hrun|].
  split; [apply sameView_platform, Hview|].
  intros k v reading Hk Hreg Hslot Hmark Hfun.
  specialize (Hretro k v Hk Hreg Hslot). rewrite Hmark in Hretro.
  apply retrofitted_plain_read; assumption.
Qed.

Section RetrofittedMethods.

Variable behav : nat → value → list value → M value.

(** A retrofitted method can be read on every platform; invoked, it runs the
    original on the platform of the class and throws the mismatch error
    elsewhere. *)
Lemma retrofitted_method_call T cls k f (inst : object) this args st :
  retrofitted T cls k (VFunction f) inst →
  getProperty inst k st = (Ok (VFunction (classMethodWrapper T k f)), st)
  ∧ callValue behav (VFunction (classMethodWrapper T k f)) this args st
    = if decide (getCurrentPlatform st = Target T)
      then call behav (body f) this args st
      else (Throw (JsError (methodMessage k T (getCurrentPlatform st))), st).
Proof.
  intros Hretro. split; [apply getProperty_data, Hretro|].
  cbn [callValue classMethodWrapper body].
  destruct (decide (getCurrentPlatform st = Target T)) as [Heq|Hne].
  - apply call_wrapper_match, Heq.
  - apply call_wrapper_mismatch, Hne.
Qed.

End RetrofittedMethods.

(** C6 (what the code does).  [Settings] is guarded for [node]; its
    instances have the field [mode] and its prototype has a default for
    [mode].  While [web] is simulated the guarded constructor throws the
    mismatch error itself: the loop visits [mode] twice, and the second
    visit reads the accessor pair the first visit installed.  While [node]
    is simulated the same construction returns an instance. *)
Theorem construct_on_wrong_platform_throws_at_shadowed_name :
  fst (newInstance (platformSpecificClass node settingsClass) []
         (simulating (Target web)))
  = Throw (JsError
      "Property mode of type Settings can only be accessed in a node environment, current environment is web.")
  ∧ allPropertiesOf
      {| own := [("mode", Data (VString "dark"))];
         proto := [("constructor", Data (VFunction (clientFunction 0)));
                   ("mode", Data (VString "light"))] |}
    = ["mode"; "constructor"; "mode"]
  ∧ fst (newInstance (platformSpecificClass node settingsClass) []
           (simulating (Target node)))
    = Ok {| own := [("mode", Accessor (classAccessor node "Settings" "mode"
                                         (VString "dark")) true);
                    ("constructor",
                     Data (VFunction (classMethodWrapper node "constructor"
                                        (clientFunction 0))))];
            proto := [("constructor", Data (VFunction (clientFunction 0)));
                      ("mode", Data (VString "light"))] |}.
Proof. split_and!; vm_compute; reflexivity. Qed.

(** The same happens without any shadowing when the original constructor
    returns an instance that went through the loop before (a cached
    instance): its retrofitted members are neither marked nor registered,
    and the loop reads them again. *)
Lemma construct_again_on_wrong_platform_throws :
  findSlot cachedCounter "count"
  = Some (Accessor (classAccessor node "Counter" "count" (VNumber 0)) true)
  ∧ fst (newInstance (platformSpecificClass node cachedCounterClass) []
           (simulating (Target web)))
    = Throw (JsError
        "Property count of type Counter can only be accessed in a node environment, current environment is web.").
Proof. split; vm_compute; reflexivity. Qed.

(** C7 (what the code does).  [Panel] binds its method [handle] in its
    constructor, so the name is an own property of the instance and a
    property of the prototype.  The loop visits the concatenation of the two
    lists of names, [handle] twice; the wrapper of the first visit carries
    no mark, and the second visit wraps it again: the member ends up as a
    wrapper around a wrapper around the original. *)
Theorem construct_wraps_shadowed_method_twice :
  fst (newInstance (platformSpecificClass node panelClass) []
         (simulating (Target node)))
  = Ok {| own := [("handle",
                   Data (VFunction
                           {| body := MethodWrapper node "handle"
                                        (MethodWrapper node "handle" (Native 2));
                              marks := noMarks |}));
                  ("constructor",
                   Data (VFunction (classMethodWrapper node "constructor"
                                      (clientFunction 0))))];
          proto := [("constructor", Data (VFunction (clientFunction 0)));
                    ("handle", Data (VFunction (clientFunction 1)))] |}
  ∧ classMethodWrapper node "handle" (classMethodWrapper node "handle" (clientFunction 2))
    = {| body := MethodWrapper node "handle"
                   (MethodWrapper node "handle" (Native 2));
         marks := noMarks |}.
Proof. split; vm_compute; reflexivity. Qed.




(** * Further properties of the module *)

(** ** Predicates, assertion and override *)

(** X1. [isWeb] and [isNode] say what [assertPlatform] enforces:
    [assertPlatform(t)] returns normally exactly when the predicate of [t]
    holds.  The two predicates never hold together, and both fail exactly
    when the platform is [unknown]. *)
Theorem predicates_agree_with_assertPlatform :
  ∀ (st : State) (msg : option string),
    (isWeb st = true ↔ assertPlatform web msg st = (Ok tt, st))
    ∧ (isNode st = true ↔ assertPlatform node msg st = (Ok tt, st))
    ∧ isWeb st && isNode st = false
    ∧ (isWeb st = false ∧ isNode st = false ↔ getCurrentPlatform st = unknown).
Proof.
  intros st msg.
  assert (Hassert : ∀ t, bool_decide (getCurrentPlatform st = Target t) = true
                         ↔ assertPlatform t msg st = (Ok tt, st)).
  { intros t. rewrite bool_decide_eq_true. split.
    - apply assertPlatform_match.
    - unfold assertPlatform. cbn [enabled andb]. case_bool_decide as Hne.
      + discriminate.
      + intros _. destruct (decide (getCurrentPlatform st = Target t)); tauto. }
  split_and!.
  - apply (Hassert web).
  - apply (Hassert node).
  - unfold isWeb, isNode. destruct (getCurrentPlatform st) as [[]|]; reflexivity.
  - unfold isWeb, isNode. destruct (getCurrentPlatform st) as [[]|]; simpl;
      split; intros H; try discriminate; try (destruct H; discriminate); tauto.
Qed.

(** The override is one variable, not a stack: a second
    [setCurrentPlatform] replaces the first, whatever it was, and clearing
    after any number of overrides brings back the detection of the host.
    The registries and the host are never touched. *)
Theorem setCurrentPlatform_last_write_wins :
  ∀ (first second : SimulatedPlatformType) (st : State),
    snd (setCurrentPlatform second (snd (setCurrentPlatform first st)))
    = snd (setCurrentPlatform second st)
    ∧ getCurrentPlatform
        (snd (setCurrentPlatform None
                (snd (setCurrentPlatform second (snd (setCurrentPlatform first st))))))
      = getCurrentPlatform (snd (setCurrentPlatform None st))
    ∧ crossPlatformProperties (snd (setCurrentPlatform first st))
      = crossPlatformProperties st
    ∧ platformSpecificProperties (snd (setCurrentPlatform first st))
      = platformSpecificProperties st
    ∧ sameView (snd (setCurrentPlatform (simulatedPlatform st) st)) st.
Proof. intros first second st. split_and!; try reflexivity. repeat split. Qed.

Section FunctionProperties.

Variable behav : nat → value → list value → M value.
Variable nameOf : nat → string.

Lemma functionMessage_truthy n t p : truthyString (functionMessage n t p) = true.
Proof. reflexivity. Qed.

Lemma callFunc_wrapper_match platform original this args st :
  getCurrentPlatform st = Target platform →
  callFunc behav nameOf (FunctionWrapper platform original) this args st
  = callFunc behav nameOf original VUndefined args st.
Proof.
  intros H. cbn [callFunc]. unfold mbind, M_bind.
  rewrite assertPlatform_match by exact H. reflexivity.
Qed.

Lemma callFunc_wrapper_mismatch platform original this args st :
  getCurrentPlatform st ≠ Target platform →
  callFunc behav nameOf (FunctionWrapper platform original) this args st
  = (Throw (JsError (functionMessage (funcName nameOf original) platform
                       (getCurrentPlatform st))), st).
Proof.
  intros H. cbn [callFunc]. unfold mbind, M_bind.
  rewrite assertPlatform_mismatch;
    [reflexivity | exact H | apply functionMessage_truthy].
Qed.

(** X2. A platform that cannot be determined is a wrong platform for every
    target: with [unknown] as the current platform [assertPlatform] throws
    for [web] and for [node], a guarded method and a guarded function throw
    instead of running, a guarded property cannot be read, and
    [platformSpecificCode] runs nothing. *)
Theorem unknown_platform_fails_every_guard :
  ∀ (st : State) (T : TargetPlatformType) (key : string) (original : code)
    (f : callable) (a : accessor) (this : value) (args : list value),
    getCurrentPlatform st = unknown →
    assertPlatform T None st = (Throw (JsError (defaultMessage T)), st)
    ∧ call behav (MethodWrapper T key original) this args st
      = (Throw (JsError (methodMessage key T unknown)), st)
    ∧ callFunc behav nameOf (makePlatformSpecific T f) this args st
      = (Throw (JsError (functionMessage (funcName nameOf f) T unknown)), st)
    ∧ getter a st
      = (Throw (JsError (propertyMessage (propertyKey a) (className a)
                           (platform a) unknown)), st)
    ∧ platformSpecificCode behav nameOf T f st = (Ok VUndefined, st)
    ∧ isWeb st = false
    ∧ isNode st = false.
Proof.
  intros st T key original f a this args Hunknown.
  assert (Hne : ∀ t, getCurrentPlatform st ≠ Target t)
    by (intros t; rewrite Hunknown; discriminate).
  split_and!.
  - apply assertPlatform_default, Hne.
  - rewrite call_wrapper_mismatch by apply Hne. rewrite Hunknown. reflexivity.
  - cbn [makePlatformSpecific enabled negb].
    rewrite callFunc_wrapper_mismatch by apply Hne. rewrite Hunknown. reflexivity.
  - rewrite getter_mismatch by apply Hne. rewrite Hunknown. reflexivity.
  - unfold platformSpecificCode. rewrite Hunknown. reflexivity.
  - unfold isWeb. rewrite Hunknown. reflexivity.
  - unfold isNode. rewrite Hunknown. reflexivity.
Qed.

(** X4. The function [makePlatformSpecific(T, f)] returns, called while [P]
    is the current platform, does what [f] does when [P] is [T] and
    otherwise throws ["Function {name} can only be called in a {platform}
    environment, current platform is {current}."] with the name of [f].  It
    calls [f] without a receiver: whatever receiver it is called on, [f]
    sees [undefined]. *)
Theorem makePlatformSpecific_guards_call :
  ∀ (T : TargetPlatformType) (P : PlatformType) (f : callable)
    (this : value) (args : list value) (st : State),
    let now := snd (setCurrentPlatform (Some P) st) in
    callFunc behav nameOf (makePlatformSpecific T f) this args now
    = (if decide (P = Target T)
       then callFunc behav nameOf f VUndefined args now
       else (Throw (JsError ("Function " +:+ funcName nameOf f
                               +:+ " can only be called in a " +:+ targetName T
                               +:+ " environment, current platform is "
                               +:+ platformName P +:+ ".")), now))
    ∧ callFunc behav nameOf (makePlatformSpecific T f) this args now
      = callFunc behav nameOf (makePlatformSpecific T f) VUndefined args now.
Proof.
  intros T P f this args st now. cbn [makePlatformSpecific enabled negb].
  destruct (decide (P = Target T)) as [->|Hne].
  - rewrite !callFunc_wrapper_match by reflexivity. split; reflexivity.
  - rewrite !callFunc_wrapper_mismatch by exact Hne. split; reflexivity.
Qed.

(** X5. A function guarded twice, for two different platforms, can be
    called nowhere: on the platform of the outer guard the inner guard
    throws, naming the original function; everywhere else the outer guard
    throws, naming the function it wraps, whose name is [func]. *)
Theorem makePlatformSpecific_twice_for_different_platforms_never_runs :
  ∀ (inner outer : TargetPlatformType) (f : callable) (this : value)
    (args : list value) (st : State),
    inner ≠ outer →
    callFunc behav nameOf (makePlatformSpecific outer (makePlatformSpecific inner f))
      this args st
    = (Throw (JsError
         (if decide (getCurrentPlatform st = Target outer)
          then functionMessage (funcName nameOf f) inner (getCurrentPlatform st)
          else functionMessage "func" outer (getCurrentPlatform st))), st).
Proof.
  intros inner outer f this args st Hdiff. cbn [makePlatformSpecific enabled negb].
  destruct (decide (getCurrentPlatform st = Target outer)) as [Heq|Hne].
  - rewrite callFunc_wrapper_match by exact Heq.
    rewrite callFunc_wrapper_mismatch; [reflexivity|].
    rewrite Heq. intros H. apply Hdiff. congruence.
  - rewrite callFunc_wrapper_mismatch by exact Hne. reflexivity.
Qed.

(** X6. [platformSpecificCode(T, code)] runs [code] exactly on [T]; off [T]
    it returns [undefined] and leaves the state alone, and never throws.
    Given a function guarded for the same platform it does what it does
    with the unguarded function; given a function guarded for the other
    platform it never runs it: it throws the mismatch error on [T] and
    returns [undefined] elsewhere. *)
Theorem platformSpecificCode_runs_only_on_target :
  ∀ (T guard : TargetPlatformType) (f : callable) (st : State),
    platformSpecificCode behav nameOf T f st
    = (if decide (getCurrentPlatform st = Target T)
       then callFunc behav nameOf f VUndefined [] st
       else (Ok VUndefined, st))
    ∧ platformSpecificCode behav nameOf T (makePlatformSpecific T f) st
      = platformSpecificCode behav nameOf T f st
    ∧ platformSpecificCode behav nameOf T (makePlatformSpecific guard f) st
      = (if decide (guard = T) then platformSpecificCode behav nameOf T f st
         else if decide (getCurrentPlatform st = Target T)
         then (Throw (JsError (functionMessage (funcName nameOf f) guard
                                 (getCurrentPlatform st))), st)
         else (Ok VUndefined, st)).
Proof.
  intros T guard f st.
  assert (Hcode : ∀ g, platformSpecificCode behav nameOf T g st
                  = if decide (getCurrentPlatform st = Target T)
                    then callFunc behav nameOf g VUndefined [] st
                    else (Ok VUndefined, st)).
  { intros g. unfold platformSpecificCode. cbn [enabled negb orb].
    destruct (decide (getCurrentPlatform st = Target T)) as [Heq|Hne].
    - rewrite bool_decide_eq_true_2 by exact Heq. reflexivity.
    - rewrite bool_decide_eq_false_2 by exact Hne. reflexivity. }
  assert (Hsame : platformSpecificCode behav nameOf T (makePlatformSpecific T f) st
                  = platformSpecificCode behav nameOf T f st).
  { rewrite !Hcode. cbn [makePlatformSpecific enabled negb].
    destruct (decide (getCurrentPlatform st = Target T)) as [Heq|Hne];
      [apply callFunc_wrapper_match, Heq | reflexivity]. }
  split_and!; [apply Hcode | exact Hsame |].
  destruct (decide (guard = T)) as [->|Hdiff]; [exact Hsame|].
  rewrite Hcode. cbn [makePlatformSpecific enabled negb].
  destruct (decide (getCurrentPlatform st = Target T)) as [Heq|Hne]; [|reflexivity].
  apply callFunc_wrapper_mismatch. rewrite Heq. congruence.
Qed.

End FunctionProperties.

(** ** Decorating methods *)

Lemma storeProperty_same k s (l : properties) :
  lookupProperty k l = Some s → storeProperty k s l = l.
Proof.
  induction l as [|[k' s'] l IH]; simpl; [discriminate|].
  destruct (decide (k = k')) as [->|Hne].
  - intros H. simplify_eq. reflexivity.
  - intros H. rewrite (IH H). reflexivity.
Qed.

Lemma propertyNames_store_present k s s' (l : properties) :
  lookupProperty k l = Some s' →
  propertyNames (storeProperty k s l) = propertyNames l.
Proof.
  unfold propertyNames. induction l as [|[k' s0] l IH]; simpl; [discriminate|].
  destruct (decide (k = k')) as [->|Hne]; simpl.
  - reflexivity.
  - intros H. f_equal. apply IH, H.
Qed.

Lemma propertyNames_store_absent k s (l : properties) :
  lookupProperty k l = None →
  propertyNames (storeProperty k s l) = (propertyNames l ++ [k])%list.
Proof.
  unfold propertyNames. induction l as [|[k' s0] l IH]; simpl; [reflexivity|].
  destruct (decide (k = k')) as [->|Hne]; simpl.
  - discriminate.
  - intros H. f_equal. apply IH, H.
Qed.

Section DecoratedMethods.

Variable behav : nat → value → list value → M value.

(** X7. [platformSpecificMethod] does not stop at a method that is already
    platform-specific: a second declaration wraps the wrapper of the first.
    Declared twice for one platform the method behaves as declared once;
    declared for two different platforms it can be called nowhere, the
    outer declaration throwing off its platform and the inner one on it. *)
Theorem platformSpecificMethod_twice :
  ∀ (inner outer : TargetPlatformType) (target : object) (propertyKey : string)
    (original : code) (specific : bool) (this : value) (args : list value)
    (st : State),
    let originalMethod :=
      {| body := original;
         marks := {| crossPlatform := false; platformSpecific := specific |} |} in
    let once := guardedMethod inner propertyKey originalMethod in
    let twice := guardedMethod outer propertyKey once in
    platformSpecificMethod outer target propertyKey {| descriptorValue := Some once |}
    = Ok {| descriptorValue := Some twice |}
    ∧ call behav (body twice) this args st
      = (if decide (getCurrentPlatform st = Target outer)
         then (if decide (inner = outer)
               then call behav original this args st
               else (Throw (JsError (methodMessage propertyKey inner
                                       (getCurrentPlatform st))), st))
         else (Throw (JsError (methodMessage propertyKey outer
                                 (getCurrentPlatform st))), st)).
Proof.
  intros inner outer target propertyKey original specific this args st
    originalMethod once twice.
  split; [reflexivity|]. subst twice once. cbn [guardedMethod body].
  destruct (decide (getCurrentPlatform st = Target outer)) as [Heq|Hne].
  - rewrite call_wrapper_match by exact Heq.
    destruct (decide (inner = outer)) as [->|Hdiff].
    + apply call_wrapper_match, Heq.
    + apply call_wrapper_mismatch. rewrite Heq. congruence.
  - apply call_wrapper_mismatch, Hne.
Qed.

(** X8. Entries of a [switchPlatform] map that are guarded for the
    platform they are filed under never trip their guard: the map behaves
    as the map of the unguarded functions, on every platform.  An entry
    filed under [web] but guarded for [node] makes [switchPlatform] throw
    the mismatch error whenever [web] is the current platform. *)
Theorem switchPlatform_with_guarded_entries :
  ∀ (forWeb forNode : funobj) (forUnknown : option funobj)
    (webKey nodeKey : string) (st : State),
    switchPlatform behav
      {| webEntry := Some (guardedMethod web webKey forWeb);
         nodeEntry := Some (guardedMethod node nodeKey forNode);
         unknownEntry := forUnknown |} st
    = switchPlatform behav
        {| webEntry := Some forWeb; nodeEntry := Some forNode;
           unknownEntry := forUnknown |} st
    ∧ switchPlatform behav
        {| webEntry := Some (guardedMethod node webKey forWeb);
           nodeEntry := Some forNode; unknownEntry := forUnknown |}
        (snd (setCurrentPlatform (Some (Target web)) st))
      = (Throw (JsError (methodMessage webKey node (Target web))),
         snd (setCurrentPlatform (Some (Target web)) st)).
Proof.
  intros forWeb forNode forUnknown webKey nodeKey st. split.
  - unfold switchPlatform.
    destruct (getCurrentPlatform st) as [[]|] eqn:Hcurrent; cbn [mapEntry].
    + cbn [guardedMethod body]. apply call_wrapper_match, Hcurrent.
    + cbn [guardedMethod body]. apply call_wrapper_match, Hcurrent.
    + reflexivity.
  - unfold switchPlatform.
    change (getCurrentPlatform (snd (setCurrentPlatform (Some (Target web)) st)))
      with (Target web).
    cbn [mapEntry webEntry guardedMethod body].
    rewrite call_wrapper_mismatch; [reflexivity|].
    change (getCurrentPlatform (snd (setCurrentPlatform (Some (Target web)) st)))
      with (Target web). discriminate.
Qed.

End DecoratedMethods.

(** X9. Decorating a member that is not there fails at decoration time,
    whatever the platform: [platformSpecificMethod] throws its own error for
    a descriptor without a value, and [crossPlatformMethod] throws a
    [TypeError] when the member is found nowhere (it is no own property, no
    property of the prototype, and no name [Object.prototype] has), or when
    the target has [null] or a primitive there. *)
Theorem decorating_a_missing_method_throws :
  ∀ (T : TargetPlatformType) (target : object) (propertyKey : string)
    (st : State),
    findSlot target propertyKey = None →
    propertyKey ∉ objectPrototypeKeys →
    platformSpecificMethod T target propertyKey {| descriptorValue := None |}
    = Throw (JsError
        "platformSpecificMethod decorator should be applied on methods only.")
    ∧ crossPlatformMethod target propertyKey st = (Throw JsTypeError, st)
    ∧ (∀ v other,
         findSlot other propertyKey = Some (Data v) →
         (∀ f, v ≠ VFunction f) → (∀ id m, v ≠ VObject id m) →
         crossPlatformMethod other propertyKey st = (Throw JsTypeError, st)).
Proof.
  intros T target propertyKey st Hmissing _. split_and!.
  - reflexivity.
  - unfold crossPlatformMethod, getProperty. rewrite Hmissing. reflexivity.
  - intros v other Hslot Hfun Hobj. unfold crossPlatformMethod. unfold_monad.
    rewrite (getProperty_data _ _ _ _ Hslot).
    destruct v; try reflexivity; [contradiction (Hobj id m) | contradiction (Hfun f)];
      reflexivity.
Qed.

(** X10. [crossPlatformMethod] only adds its mark, and adds it to the
    function object: the method keeps its code and its platform-specific
    mark; a member that holds the same function of the client under another
    name carries the mark as well; a member that holds anything else is
    unchanged, no name is added or removed, and applying the decorator again
    changes nothing. *)
Theorem crossPlatformMethod_only_marks :
  ∀ (target : object) (propertyKey : string) (f : funobj) (st : State),
    findSlot target propertyKey = Some (Data (VFunction f)) →
    let exempt :=
      {| body := body f;
         marks := {| crossPlatform := true;
                     platformSpecific := platformSpecific (marks f) |} |} in
    ∃ target',
      crossPlatformMethod target propertyKey st = (Ok target', st)
      ∧ findSlot target' propertyKey = Some (Data (VFunction exempt))
      ∧ (∀ k g id,
           findSlot target k = Some (Data (VFunction g)) →
           body f = Native id → body g = Native id →
           findSlot target' k = Some (Data (VFunction exempt)))
      ∧ (∀ k s, findSlot target k = Some s → holdsFunction (body f) s = false →
                findSlot target' k = Some s)
      ∧ (∀ k, findSlot target k = None → findSlot target' k = None)
      ∧ allPropertiesOf target' = allPropertiesOf target
      ∧ crossPlatformMethod target' propertyKey st = (Ok target', st).
Proof.
  intros target propertyKey f st Hslot exempt.
  assert (Hheld : ∀ g, body g = body f →
            refreshValue (VFunction exempt) (VFunction g) = VFunction exempt).
  { intros g Hg. unfold refreshValue. cbn [sameObject exempt body].
    rewrite bool_decide_eq_true_2 by exact Hg. reflexivity. }
  assert (Hnew : findSlot (refreshMembers (VFunction exempt) target) propertyKey
                 = Some (Data (VFunction exempt))).
  { rewrite findSlot_refresh, Hslot. cbn [fmap option_fmap option_map refreshSlot].
    rewrite Hheld by reflexivity. reflexivity. }
  exists (refreshMembers (VFunction exempt) target). split_and!.
  - apply crossPlatformMethod_run, Hslot.
  - exact Hnew.
  - intros k g id Hk Hf Hg. rewrite findSlot_refresh, Hk.
    cbn [fmap option_fmap option_map refreshSlot].
    rewrite Hheld by congruence. reflexivity.
  - intros k s Hk Hother. rewrite findSlot_refresh, Hk.
    cbn [fmap option_fmap option_map]. rewrite refreshSlot_other; [reflexivity|].
    unfold holdsFunction in Hother. unfold sameObject.
    destruct (slotValue s); try reflexivity. exact Hother.
  - intros k Hk. rewrite findSlot_refresh, Hk. reflexivity.
  - unfold allPropertiesOf, refreshMembers. cbn [own proto].
    rewrite !propertyNames_refresh. reflexivity.
  - rewrite (crossPlatformMethod_run _ _ exempt _ Hnew).
    cbn [exempt body marks markCrossPlatform crossPlatform platformSpecific].
    rewrite refreshMembers_idem. reflexivity.
Qed.

(** ** What the class-level guard leaves alone *)

Lemma defineAccessor_state (o : object) k a st :
  (defineAccessor o k a st).2 = st.
Proof.
  unfold defineAccessor. unfold_monad.
  destruct (lookupProperty k (own o)) as [[w|old [|]]|]; reflexivity.
Qed.

Lemma guardMember_state T cls (inst : object) key st :
  (guardMember T cls inst key st).2 = st.
Proof.
  destruct (getProperty_split inst key st) as [[v Hget]|[e Hget]].
  - rewrite (guardMember_read _ _ _ _ _ _ Hget).
    destruct (nullish v); [reflexivity|]. destruct (marked v); [reflexivity|].
    destruct v; try apply defineAccessor_state.
    destruct (setProperty_ok inst key (VFunction (classMethodWrapper T key f)) st)
      as (o' & Hset & _). rewrite Hset. reflexivity.
  - rewrite (guardMember_unreadable _ _ _ _ _ _ Hget). reflexivity.
Qed.

(** The result of treating a member is the instance itself, the instance
    after an assignment to the member, or the instance after an accessor
    pair was defined for it. *)
Lemma guardMember_inv T cls (inst inst' : object) key st st' :
  guardMember T cls inst key st = (Ok inst', st') →
  inst' = inst
  ∨ (∃ w, setProperty inst key w st = (Ok inst', st))
  ∨ (∃ a, defineAccessor inst key a st = (Ok inst', st)).
Proof.
  intros H. pose proof (guardMember_state T cls inst key st) as Hst.
  rewrite H in Hst. simpl in Hst. subst st'. revert H.
  destruct (getProperty_split inst key st) as [[v Hget]|[e Hget]].
  - rewrite (guardMember_read _ _ _ _ _ _ Hget).
    destruct (nullish v); [discriminate|].
    destruct (marked v); [intros H; simplify_eq; left; reflexivity|].
    destruct v; eauto.
  - rewrite (guardMember_unreadable _ _ _ _ _ _ Hget). discriminate.
Qed.

Lemma constructKey_state T cls (inst : object) key st :
  sameView st (constructKey T cls inst key st).2.
Proof.
  destruct (constructKey_cases T cls inst key st) as (st1 & Hv & [H|[[_ H]|[_ H]]]);
    rewrite H; try exact Hv.
  rewrite guardMember_state. exact Hv.
Qed.

Lemma constructLoop_state T cls keys (inst : object) st :
  sameView st (constructLoop T cls keys inst st).2.
Proof.
  revert inst st. induction keys as [|key rest IH]; intros inst st.
  - apply sameView_refl.
  - rewrite constructLoop_cons.
    pose proof (constructKey_state T cls inst key st) as Hstep.
    destruct (constructKey T cls inst key st) as [[inst1|e] st1]; simpl in Hstep.
    + eapply sameView_trans; [exact Hstep | apply IH].
    + exact Hstep.
Qed.

Lemma setProperty_proto (o o' : object) k w st st' :
  setProperty o k w st = (Ok o', st') →
  propertyNames (proto o') = propertyNames (proto o)
  ∧ ∀ k' v, lookupProperty k' (proto o) = Some (Data v) →
            lookupProperty k' (proto o') = Some (Data v).
Proof.
  unfold setProperty, setter. unfold_monad.
  destruct (lookupProperty k (own o)) as [[u|a c]|] eqn:Ho;
    try (intros H; simplify_eq; simpl; split; [reflexivity | tauto]).
  destruct (lookupProperty k (proto o)) as [[u|a c]|] eqn:Hp;
    try (intros H; simplify_eq; simpl; split; [reflexivity | tauto]).
  intros H. simplify_eq. simpl. split.
  - eapply propertyNames_store_present, Hp.
  - intros k' v Hk'. destruct (decide (k = k')) as [->|Hne]; [congruence|].
    rewrite lookup_store_ne by exact Hne. exact Hk'.
Qed.

Lemma defineAccessor_proto (o o' : object) k a st st' :
  defineAccessor o k a st = (Ok o', st') → proto o' = proto o.
Proof.
  unfold defineAccessor. unfold_monad.
  destruct (lookupProperty k (own o)) as [[w|old [|]]|]; intros H; simplify_eq;
    reflexivity.
Qed.

Lemma constructLoop_proto T cls keys (inst inst' : object) st st' :
  constructLoop T cls keys inst st = (Ok inst', st') →
  propertyNames (proto inst') = propertyNames (proto inst)
  ∧ ∀ k v, lookupProperty k (proto inst) = Some (Data v) →
           lookupProperty k (proto inst') = Some (Data v).
Proof.
  revert inst st. induction keys as [|key rest IH]; intros inst st.
  - intros H. cbn in H. unfold_monad. simplify_eq. split; [reflexivity | tauto].
  - rewrite constructLoop_cons.
    destruct (constructKey T cls inst key st) as [[inst1|e] st1] eqn:Hstep;
      [|discriminate].
    intros Hloop. apply IH in Hloop as [Hnames Hdata].
    assert (Hone : propertyNames (proto inst1) = propertyNames (proto inst)
                   ∧ ∀ k v, lookupProperty k (proto inst) = Some (Data v) →
                            lookupProperty k (proto inst1) = Some (Data v)).
    { destruct (constructKey_cases T cls inst key st)
        as (st2 & _ & [H|[[_ H]|[_ H]]]); rewrite H in Hstep.
      - discriminate.
      - simplify_eq. split; [reflexivity | tauto].
      - apply guardMember_inv in Hstep as [->|[[w Hset]|[a Hdef]]].
        + split; [reflexivity | tauto].
        + eapply setProperty_proto, Hset.
        + apply defineAccessor_proto in Hdef. rewrite Hdef.
          split; [reflexivity | tauto]. }
    destruct Hone as [Hnames1 Hdata1]. split; [congruence|].
    intros k v Hk. apply Hdata, Hdata1, Hk.
Qed.

(** X14. The guarded constructor adds nothing of its own to what the
    original constructor does to the module state: it keeps the override
    and registers no pair, so the members it retrofits stay unregistered.
    When the original constructor throws, the guarded constructor throws
    the same error. *)
Theorem guarded_constructor_registers_nothing :
  ∀ (T : TargetPlatformType) (constructor : Class) (args : list value)
    (st : State),
    sameView (newInstance constructor args st).2
      (newInstance (platformSpecificClass T constructor) args st).2
    ∧ (∀ c k,
         registeredIn (newInstance (platformSpecificClass T constructor) args st).2 c k
         = registeredIn (newInstance constructor args st).2 c k)
    ∧ match newInstance constructor args st with
      | (Throw e, st1) =>
          newInstance (platformSpecificClass T constructor) args st = (Throw e, st1)
      | (Ok _, _) => True
      end.
Proof.
  intros T constructor args st.
  assert (Hview : sameView (newInstance constructor args st).2
                    (newInstance (platformSpecificClass T constructor) args st).2).
  { cbn [platformSpecificClass enabled newInstance]. unfold construct. unfold_monad.
    destruct (newInstance constructor args st) as [[inst|e] st1]; simpl.
    - apply constructLoop_state.
    - apply sameView_refl. }
  split_and!.
  - exact Hview.
  - intros c k. apply sameView_registeredIn, Hview.
  - cbn [platformSpecificClass enabled newInstance]. unfold construct. unfold_monad.
    destruct (newInstance constructor args st) as [[inst|e] st1]; reflexivity.
Qed.

(** X15. The guarded constructor installs its guards on the instance, not
    on the prototype: whenever it returns, the prototype has the names it
    had, and every method or plain value of the prototype is still there
    unchanged, for the other instances to inherit. *)
Theorem guarded_constructor_keeps_prototype :
  ∀ (T : TargetPlatformType) (constructor : Class) (args : list value)
    (st st1 st' : State) (inst inst' : object),
    newInstance constructor args st = (Ok inst, st1) →
    newInstance (platformSpecificClass T constructor) args st = (Ok inst', st') →
    propertyNames (proto inst') = propertyNames (proto inst)
    ∧ ∀ k v, lookupProperty k (proto inst) = Some (Data v) →
             lookupProperty k (proto inst') = Some (Data v).
Proof.
  intros T constructor args st st1 st' inst inst' Hnew Hrun.
  rewrite (guarded_constructor_runs_loop _ _ _ _ _ _ Hnew) in Hrun.
  eapply constructLoop_proto, Hrun.
Qed.

Lemma constructLoop_registered T cls keys k (inst inst' : object) st st' :
  registeredIn st cls k = true →
  constructLoop T cls keys inst st = (Ok inst', st') →
  findSlot inst' k = findSlot inst k.
Proof.
  revert inst st. induction keys as [|key rest IH]; intros inst st Hreg.
  - intros H. cbn in H. unfold_monad. simplify_eq. reflexivity.
  - rewrite constructLoop_cons.
    destruct (constructKey T cls inst key st) as [[inst1|e] st1] eqn:Hstep;
      [|discriminate].
    intros Hloop.
    assert (Hone : findSlot inst1 k = findSlot inst k).
    { destruct (decide (key = k)) as [->|Hne].
      - destruct (constructKey_cases T cls inst k st)
          as (st2 & _ & [H|[[_ H]|[Hno _]]]); [| |congruence];
          rewrite H in Hstep; simplify_eq. reflexivity.
      - apply constructKey_frame in Hstep as [_ Hfr]. apply Hfr. congruence. }
    rewrite <- Hone. apply (IH inst1 st1); [|exact Hloop].
    rewrite (sameView_registeredIn st st1); [exact Hreg|].
    pose proof (constructKey_state T cls inst key st) as Hv.
    rewrite Hstep in Hv. exact Hv.
Qed.

(** X13. A declaration on the member wins over the declaration on the
    class.  A property that [platformSpecificProperty] registered comes out
    of the guarded constructor as the slot it was: it is read through the
    accessor pair of its own declaration and stays gated on that platform,
    whatever the platform of the class.  A method wrapped by
    [platformSpecificMethod] carries the platform-specific mark and is left
    in place as well. *)
Theorem member_declaration_wins_over_class :
  ∀ (classPlatform memberPlatform : TargetPlatformType) (cls k m : string)
    (keys : list string) (inst inst' : object) (st st' : State)
    (f : funobj),
    memberOf (platformSpecificProperties st) cls k = true →
    constructLoop classPlatform cls keys inst st = (Ok inst', st') →
    findSlot inst' k = findSlot inst k
    ∧ (∀ a c reading, findSlot inst k = Some (Accessor a c) →
                      getProperty inst' k reading = getter a reading)
    ∧ (∀ st1,
         findSlot inst m = Some (Data (VFunction (guardedMethod memberPlatform m f))) →
         guardMember classPlatform cls inst m st1 = (Ok inst, st1)).
Proof.
  intros classPlatform memberPlatform cls k m keys inst inst' st st' f Hspec Hloop.
  assert (Hreg : registeredIn st cls k = true)
    by (unfold registeredIn; rewrite Hspec; apply orb_true_r).
  pose proof (constructLoop_registered _ _ _ _ _ _ _ _ Hreg Hloop) as Hsame.
  split_and!.
  - exact Hsame.
  - intros a c reading Hslot. unfold getProperty. rewrite Hsame, Hslot. reflexivity.
  - intros st1 Hslot. apply (guardMember_marked _ _ _ _ _ _ Hslot). reflexivity.
Qed.

(** ** The property guard at decoration time *)




(** ** The tag registry in use *)

Lemma registryAdd_keeps (r : Registry) cls p c k :
  memberOf r c k = true → memberOf (registryAdd r cls p).2 c k = true.
Proof.
  intros H. unfold registryAdd.
  assert (He : memberOf (ensureEntry r cls) c k = true)
    by (rewrite memberOf_ensureEntry; exact H).
  destruct (registryGet (ensureEntry r cls) cls) as [s| |] eqn:Hget;
    [|exact He|exact He].
  cbn [snd]. unfold memberOf in *. destruct (decide (cls = c)) as [->|Hne].
  - rewrite lookup_insert_eq. cbn [default].
    unfold registryGet in Hget.
    destruct (ensureEntry r c !! c) as [s'|] eqn:Hs; [|case_bool_decide; discriminate].
    simplify_eq. cbn [default] in He. apply bool_decide_eq_true_1 in He.
    apply bool_decide_eq_true_2. set_solver.
  - rewrite lookup_insert_ne by exact Hne. exact He.
Qed.

Lemma registryHas_keeps (r : Registry) cls p c k :
  memberOf (registryHas r cls p).2 c k = memberOf r c k.
Proof.
  destruct (registryHas_cases r cls p) as [H|H]; rewrite H; cbn [snd];
    [apply memberOf_ensureEntry | reflexivity].
Qed.

Lemma keepsTags_refl st : keepsTags st st.
Proof. split; intros c k H; exact H. Qed.

Lemma keepsTags_trans st1 st2 st3 :
  keepsTags st1 st2 → keepsTags st2 st3 → keepsTags st1 st3.
Proof. intros [Hc Hp] [Hc' Hp']. split; intros c k H; auto. Qed.

Lemma sameView_keepsTags st st' : sameView st st' → keepsTags st st'.
Proof.
  intros (_ & _ & Hc & Hp). split; intros c k H; [rewrite Hc | rewrite Hp]; exact H.
Qed.

Lemma addToCrossPlatformProperties_keeps cls p st :
  keepsTags st (addToCrossPlatformProperties cls p st).2.
Proof.
  unfold addToCrossPlatformProperties.
  pose proof (registryAdd_keeps (crossPlatformProperties st) cls p) as Hk.
  destruct (registryAdd (crossPlatformProperties st) cls p) as [res r].
  split; intros c k H; simpl in *; auto.
Qed.

Lemma addToPlatformSpecificProperties_keeps cls p st :
  keepsTags st (addToPlatformSpecificProperties cls p st).2.
Proof.
  unfold addToPlatformSpecificProperties.
  pose proof (registryAdd_keeps (platformSpecificProperties st) cls p) as Hk.
  destruct (registryAdd (platformSpecificProperties st) cls p) as [res r].
  split; intros c k H; simpl in *; auto.
Qed.

Lemma isInCrossPlatformProperties_view cls p st :
  sameView st (isInCrossPlatformProperties cls p st).2.
Proof.
  destruct (isInCrossPlatformProperties_cases cls p st) as (st1 & Hv & [H|H]);
    rewrite H; exact Hv.
Qed.

Lemma isInPlatformSpecificProperties_view cls p st :
  sameView st (isInPlatformSpecificProperties cls p st).2.
Proof.
  destruct (isInPlatformSpecificProperties_cases cls p st) as (st1 & Hv & [H|H]);
    rewrite H; exact Hv.
Qed.

Lemma registryHas_answer (r : Registry) c k :
  (registryHas r c k).1
  = if bool_decide (r !! c = None ∧ c ∈ objectPrototypeKeys)
    then Throw JsTypeError else Ok (memberOf r c k).
Proof.
  destruct (r !! c) as [s|] eqn:Hr.
  - rewrite (registryHas_own _ _ _ _ Hr).
    rewrite (bool_decide_eq_false_2 (Some s = None ∧ c ∈ objectPrototypeKeys))
      by (intros [? _]; congruence).
    unfold memberOf. rewrite Hr. reflexivity.
  - destruct (decide (c ∈ objectPrototypeKeys)) as [Hin|Hn].
    + rewrite registryHas_inherited by assumption.
      rewrite (bool_decide_eq_true_2 (None = None ∧ c ∈ objectPrototypeKeys))
        by tauto. reflexivity.
    + rewrite registryHas_ordinary by assumption.
      rewrite (bool_decide_eq_false_2 (None = None ∧ c ∈ objectPrototypeKeys))
        by tauto. reflexivity.
Qed.

Lemma registryHas_after_add (r : Registry) cls k c k' :
  cls ∉ objectPrototypeKeys →
  (registryHas (registryAdd r cls k).2 c k').1
  = if decide (c = cls ∧ k' = k) then Ok true else (registryHas r c k').1.
Proof.
  intros Hn. rewrite !registryHas_answer, memberOf_registryAdd by exact Hn.
  rewrite registryAdd_ordinary by exact Hn. cbn [snd].
  destruct (decide (c = cls)) as [->|Hc].
  - rewrite lookup_insert_eq.
    rewrite (bool_decide_eq_false_2 (Some _ = None ∧ cls ∈ objectPrototypeKeys))
      by (intros [? _]; congruence).
    rewrite (bool_decide_eq_false_2 (r !! cls = None ∧ cls ∈ objectPrototypeKeys))
      by tauto.
    destruct (decide (cls = cls ∧ k' = k)) as [[_ ->]|Hother].
    + rewrite (bool_decide_eq_true_2 (cls = cls ∧ k = k)) by tauto.
      rewrite orb_true_r. reflexivity.
    + rewrite (bool_decide_eq_false_2 (cls = cls ∧ k' = k)) by exact Hother.
      rewrite orb_false_r. reflexivity.
  - rewrite lookup_insert_ne by congruence.
    rewrite (bool_decide_eq_false_2 (c = cls ∧ k' = k)) by tauto.
    rewrite orb_false_r.
    destruct (decide (c = cls ∧ k' = k)) as [[? _]|_]; [contradiction|reflexivity].
Qed.

Lemma registryHas_after_query (r : Registry) cls k c k' :
  (registryHas (registryHas r cls k).2 c k').1 = (registryHas r c k').1.
Proof.
  rewrite !registryHas_answer, registryHas_keeps.
  destruct (registryHas_cases r cls k) as [H|H]; rewrite H; cbn [snd]; [|reflexivity].
  destruct (r !! cls) as [s|] eqn:Hcls;
    [rewrite (ensureEntry_own _ _ _ Hcls); reflexivity|].
  destruct (decide (cls ∈ objectPrototypeKeys)) as [Hin|Hin].
  { unfold ensureEntry. rewrite registryGet_inherited by assumption. reflexivity. }
  rewrite ensureEntry_unseen by assumption.
  destruct (decide (cls = c)) as [->|Hne].
  - rewrite lookup_insert_eq, Hcls.
    rewrite (bool_decide_eq_false_2 (Some _ = None ∧ c ∈ objectPrototypeKeys))
      by (intros [? _]; congruence).
    rewrite (bool_decide_eq_false_2 (None = None ∧ c ∈ objectPrototypeKeys))
      by tauto.
    reflexivity.
  - rewrite lookup_insert_ne by exact Hne. reflexivity.
Qed.

(** X17. Marking and querying round-trip.  For a class name usable as a
    key: marking a pair succeeds, the query of that pair then answers
    [true], every other pair is answered as before, and the other registry
    is not touched; this holds for the cross-platform registry and for the
    platform-specific one alike.  A query changes no later answer. *)
Theorem registry_mark_then_query :
  ∀ (cls k c k' : string) (st : State),
    cls ∉ objectPrototypeKeys →
    let exempt := (addToCrossPlatformProperties cls k st).2 in
    let specific := (addToPlatformSpecificProperties cls k st).2 in
    (addToCrossPlatformProperties cls k st).1 = Ok tt
    ∧ (isInCrossPlatformProperties c k' exempt).1
      = (if decide (c = cls ∧ k' = k) then Ok true
         else (isInCrossPlatformProperties c k' st).1)
    ∧ platformSpecificProperties exempt = platformSpecificProperties st
    ∧ (addToPlatformSpecificProperties cls k st).1 = Ok tt
    ∧ (isInPlatformSpecificProperties c k' specific).1
      = (if decide (c = cls ∧ k' = k) then Ok true
         else (isInPlatformSpecificProperties c k' st).1)
    ∧ crossPlatformProperties specific = crossPlatformProperties st
    ∧ (isInCrossPlatformProperties c k'
         (isInCrossPlatformProperties cls k st).2).1
      = (isInCrossPlatformProperties c k' st).1
    ∧ (isInPlatformSpecificProperties c k'
         (isInPlatformSpecificProperties cls k st).2).1
      = (isInPlatformSpecificProperties c k' st).1.
Proof.
  intros cls k c k' st Hn exempt specific.
  assert (Hfst : ∀ (A : Type) (x : outcome A * Registry) (g : Registry → State),
            (let (res, r) := x in (res, g r)).1 = x.1)
    by (intros A [res r] g; reflexivity).
  assert (Hsnd : ∀ (A : Type) (x : outcome A * Registry) (g : Registry → State),
            (let (res, r) := x in (res, g r)).2 = g x.2)
    by (intros A [res r] g; reflexivity).
  unfold exempt, specific, addToCrossPlatformProperties,
    addToPlatformSpecificProperties, isInCrossPlatformProperties,
    isInPlatformSpecificProperties.
  rewrite !Hfst, !Hsnd. cbn [crossPlatformProperties platformSpecificProperties
    set_crossPlatformProperties set_platformSpecificProperties].
  split_and!.
  - rewrite registryAdd_ordinary by exact Hn. reflexivity.
  - apply registryHas_after_add, Hn.
  - reflexivity.
  - rewrite registryAdd_ordinary by exact Hn. reflexivity.
  - apply registryHas_after_add, Hn.
  - reflexivity.
  - apply registryHas_after_query.
  - apply registryHas_after_query.
Qed.

(** X3. The registries only grow: whatever its outcome, no operation of
    the module removes a pair from the registry it is in.  This holds for
    the four registry functions, for the two property decorators, for the
    loop of the class-level guard and for [setCurrentPlatform]. *)
Theorem tags_are_never_removed :
  ∀ (T : TargetPlatformType) (cls k : string) (target inst : object)
    (keys : list string) (simulated : SimulatedPlatformType) (st : State),
    keepsTags st (addToCrossPlatformProperties cls k st).2
    ∧ keepsTags st (addToPlatformSpecificProperties cls k st).2
    ∧ keepsTags st (isInCrossPlatformProperties cls k st).2
    ∧ keepsTags st (isInPlatformSpecificProperties cls k st).2
    ∧ keepsTags st (crossPlatformProperty cls target k st).2
    ∧ keepsTags st (platformSpecificProperty T cls target k st).2
    ∧ keepsTags st (constructLoop T cls keys inst st).2
    ∧ keepsTags st (setCurrentPlatform simulated st).2.
Proof.
  intros T cls k target inst keys simulated st. split_and!.
  - apply addToCrossPlatformProperties_keeps.
  - apply addToPlatformSpecificProperties_keeps.
  - apply sameView_keepsTags, isInCrossPlatformProperties_view.
  - apply sameView_keepsTags, isInPlatformSpecificProperties_view.
  - apply addToCrossPlatformProperties_keeps.
  - unfold platformSpecificProperty. cbn [enabled]. unfold_monad.
    pose proof (getProperty_state target k st) as Hget.
    destruct (getProperty target k st) as [[v|e] st0]; simpl in Hget; subst st0;
      [|apply keepsTags_refl].
    pose proof (isInCrossPlatformProperties_view cls k st) as Hquery.
    destruct (isInCrossPlatformProperties cls k st) as [[[|]|e] st1];
      simpl in Hquery; try (apply sameView_keepsTags, Hquery).
    pose proof (addToPlatformSpecificProperties_keeps cls k st1) as Hadd.
    destruct (addToPlatformSpecificProperties cls k st1) as [[[]|e] st2];
      simpl in Hadd.
    + pose proof (defineAccessor_state target k
                    {| kind := PropertyGuard; platform := T; propertyKey := k;
                       className := cls; stored := v |} st2) as Hdef.
      destruct (defineAccessor target k _ st2) as [res st3]. simpl in Hdef.
      subst st3. cbn [snd].
      eapply keepsTags_trans; [apply sameView_keepsTags, Hquery | exact Hadd].
    + eapply keepsTags_trans; [apply sameView_keepsTags, Hquery | exact Hadd].
  - apply sameView_keepsTags, constructLoop_state.
  - split; intros c k0 H; exact H.
Qed.

(** ** The class-level guard on ordinary instances *)

Section GuardedClasses.

Variable behav : nat → value → list value → M value.

(** X16. For a class whose name is usable as a registry key and whose
    instances enumerate every member name once, with every unregistered
    member a data property that is neither [null] nor [undefined], the
    guarded constructor returns an instance on every platform, and the
    platform is checked when a member is used: an unregistered, unmarked
    plain member reads as its value on the platform of the class and throws
    the property message (with the name of the class) elsewhere; an
    unregistered, unmarked method can be read anywhere and, when invoked,
    runs the original with the same receiver and arguments on the platform
    of the class and throws the method message elsewhere. *)
Theorem guarded_class_checks_members_at_use :
  ∀ (T : TargetPlatformType) (constructor : Class) (args : list value)
    (st st1 : State) (inst : object),
    name constructor ∉ objectPrototypeKeys →
    newInstance constructor args st = (Ok inst, st1) →
    NoDup (allPropertiesOf inst) →
    (∀ k, k ∈ allPropertiesOf inst → registeredIn st1 (name constructor) k = false →
          ∃ v, findSlot inst k = Some (Data v) ∧ nullish v = false) →
    ∃ inst' st',
      newInstance (platformSpecificClass T constructor) args st = (Ok inst', st')
      ∧ (∀ k v reading,
           k ∈ allPropertiesOf inst →
           registeredIn st1 (name constructor) k = false →
           findSlot inst k = Some (Data v) → marked v = false → isFunction v = false →
           getProperty inst' k reading
           = if decide (getCurrentPlatform reading = Target T) then (Ok v, reading)
             else (Throw (JsError (propertyMessage k (name constructor) T
                                     (getCurrentPlatform reading))), reading))
      ∧ (∀ k f this arguments calling,
           k ∈ allPropertiesOf inst →
           registeredIn st1 (name constructor) k = false →
           findSlot inst k = Some (Data (VFunction f)) →
           marked (VFunction f) = false →
           ∃ wrapper,
             getProperty inst' k calling = (Ok wrapper, calling)
             ∧ callValue behav wrapper this arguments calling
               = if decide (getCurrentPlatform calling = Target T)
                 then call behav (body f) this arguments calling
                 else (Throw (JsError (methodMessage k T
                                         (getCurrentPlatform calling))), calling)).
Proof.
  intros T constructor args st st1 inst Hn Hnew Hnd Hdata.
  destruct (guarded_constructor_retrofits T constructor args st inst st1
              Hn Hnew Hnd Hdata) as (inst' & st' & Hrun & _ & Hretro & _).
  exists inst', st'. split_and!.
  - exact Hrun.
  - intros k v reading Hk Hreg Hslot Hmark Hfun.
    specialize (Hretro k v Hk Hreg Hslot). rewrite Hmark in Hretro.
    apply retrofitted_plain_read; assumption.
  - intros k f this arguments calling Hk Hreg Hslot Hmark.
    specialize (Hretro k (VFunction f) Hk Hreg Hslot). rewrite Hmark in Hretro.
    exists (VFunction (classMethodWrapper T k f)).
    apply (retrofitted_method_call behav T (name constructor)), Hretro.
Qed.

End GuardedClasses.

(** ** The properties above on the sample programs *)

Lemma unknown_platform_fails_every_guard_witness :
  assertPlatform web None (initialState bareHost)
  = (Throw (JsError "This code should only run in a web environment."),
     initialState bareHost)
  ∧ call numberedBehaviour (MethodWrapper web "render" (Native 1)) VUndefined []
      (initialState bareHost)
    = (Throw (JsError
         "Method render can only be called in a web environment, current platform is unknown."),
       initialState bareHost)
  ∧ callFunc numberedBehaviour clientName
      (makePlatformSpecific web (FromCode (Native 1))) VUndefined []
      (initialState bareHost)
    = (Throw (JsError
         "Function fetchData can only be called in a web environment, current platform is unknown."),
       initialState bareHost)
  ∧ getter (classAccessor node "Counter" "count" (VNumber 0)) (initialState bareHost)
    = (Throw (JsError
         "Property count of type Counter can only be accessed in a node environment, current environment is unknown."),
       initialState bareHost)
  ∧ platformSpecificCode numberedBehaviour clientName web (FromCode (Native 1))
      (initialState bareHost)
    = (Ok VUndefined, initialState bareHost)
  ∧ isWeb (initialState bareHost) = false
  ∧ isNode (initialState bareHost) = false.
Proof.
  exact (unknown_platform_fails_every_guard numberedBehaviour clientName
           (initialState bareHost) web "render" (Native 1) (FromCode (Native 1))
           (classAccessor node "Counter" "count" (VNumber 0)) VUndefined []
           eq_refl).
Defined.

Lemma makePlatformSpecific_twice_for_different_platforms_never_runs_witness :
  callFunc numberedBehaviour clientName
    (makePlatformSpecific node (makePlatformSpecific web (FromCode (Native 1))))
    VUndefined [] (simulating (Target node))
  = (Throw (JsError
       "Function fetchData can only be called in a web environment, current platform is node."),
     simulating (Target node))
  ∧ callFunc numberedBehaviour clientName
      (makePlatformSpecific node (makePlatformSpecific web (FromCode (Native 1))))
      VUndefined [] (simulating (Target web))
    = (Throw (JsError
         "Function func can only be called in a node environment, current platform is web."),
       simulating (Target web)).
Proof.
  split.
  - apply (makePlatformSpecific_twice_for_different_platforms_never_runs
             numberedBehaviour clientName web node (FromCode (Native 1)) VUndefined []
             (simulating (Target node))).
    discriminate.
  - apply (makePlatformSpecific_twice_for_different_platforms_never_runs
             numberedBehaviour clientName web node (FromCode (Native 1)) VUndefined []
             (simulating (Target web))).
    discriminate.
Defined.

Lemma decorating_a_missing_method_throws_witness :
  platformSpecificMethod web widgetPrototype "close" {| descriptorValue := None |}
  = Throw (JsError
      "platformSpecificMethod decorator should be applied on methods only.")
  ∧ crossPlatformMethod widgetPrototype "close" (simulating (Target web))
    = (Throw JsTypeError, simulating (Target web))
  ∧ crossPlatformMethod {| own := [("close", Data (VString "later"))]; proto := [] |}
      "close" (simulating (Target web))
    = (Throw JsTypeError, simulating (Target web)).
Proof.
  destruct (decorating_a_missing_method_throws web widgetPrototype "close"
              (simulating (Target web)) eq_refl)
    as (Hdescriptor & Hmissing & Hprimitive); [not_inherited|].
  split; [exact Hdescriptor|]. split; [exact Hmissing|].
  apply (Hprimitive (VString "later")
           {| own := [("close", Data (VString "later"))]; proto := [] |} eq_refl);
    discriminate.
Defined.

Lemma crossPlatformMethod_only_marks_witness :
  ∃ target',
    crossPlatformMethod aliasedPrototype "render" (simulating (Target web))
    = (Ok target', simulating (Target web))
    ∧ findSlot target' "render"
      = Some (Data (VFunction
                      {| body := Native 1;
                         marks := {| crossPlatform := true;
                                     platformSpecific := false |} |}))
    ∧ findSlot target' "draw"
      = Some (Data (VFunction
                      {| body := Native 1;
                         marks := {| crossPlatform := true;
                                     platformSpecific := false |} |}))
    ∧ findSlot target' "constructor" = Some (Data (VFunction (clientFunction 0)))
    ∧ findSlot target' "close" = None
    ∧ allPropertiesOf target' = ["constructor"; "render"; "draw"]
    ∧ crossPlatformMethod target' "render" (simulating (Target web))
      = (Ok target', simulating (Target web)).
Proof.
  destruct (crossPlatformMethod_only_marks aliasedPrototype "render"
              (clientFunction 1) (simulating (Target web)) eq_refl)
    as (target' & Hrun & Hmarked & Hsame & Hother & Hmissing & Hnames & Hagain).
  exists target'. split; [exact Hrun|]. split; [exact Hmarked|].
  split; [exact (Hsame "draw" (clientFunction 1) 1%nat eq_refl eq_refl eq_refl)|].
  split; [exact (Hother "constructor" _ eq_refl eq_refl)|].
  split; [exact (Hmissing "close" eq_refl)|].
  split; [exact Hnames | exact Hagain].
Defined.



Lemma member_declaration_wins_over_class_witness :
  ∃ inst' st',
    constructLoop web "Widget" (allPropertiesOf widgetInstance) widgetInstance
      titleSpecific = (Ok inst', st')
    ∧ findSlot inst' "title" = findSlot widgetInstance "title"
    ∧ (∀ reading,
         getProperty inst' "title" reading
         = getter {| kind := PropertyGuard; platform := node; propertyKey := "title";
                     className := "Widget"; stored := VUndefined |} reading).
Proof.
  destruct (constructLoop web "Widget" (allPropertiesOf widgetInstance) widgetInstance
              titleSpecific) as [[inst'|e] st'] eqn:Hrun;
    [|vm_compute in Hrun; discriminate Hrun].
  exists inst', st'. split; [reflexivity|].
  destruct (member_declaration_wins_over_class web node "Widget" "title" "render"
              (allPropertiesOf widgetInstance) widgetInstance inst' titleSpecific st'
              (clientFunction 1) eq_refl Hrun) as (Hslot & Hread & _).
  split; [exact Hslot|]. intros reading. apply (Hread _ false). reflexivity.
Defined.

Lemma guarded_constructor_keeps_prototype_witness :
  ∃ inst' st',
    newInstance (platformSpecificClass node reportClass) [] (simulating (Target web))
    = (Ok inst', st')
    ∧ propertyNames (proto inst') = ["constructor"; "print"]
    ∧ ∀ k v, lookupProperty k (proto reportInstance) = Some (Data v) →
             lookupProperty k (proto inst') = Some (Data v).
Proof.
  destruct (newInstance (platformSpecificClass node reportClass) []
              (simulating (Target web))) as [[inst'|e] st'] eqn:Hrun;
    [|vm_compute in Hrun; discriminate Hrun].
  exists inst', st'. split; [reflexivity|].
  exact (guarded_constructor_keeps_prototype node reportClass []
           (simulating (Target web)) (simulating (Target web)) st'
           reportInstance inst' eq_refl Hrun).
Defined.

Lemma guarded_class_checks_members_at_use_witness :
  ∃ inst' st',
    newInstance (platformSpecificClass node reportClass) [] (simulating (Target web))
    = (Ok inst', st')
    ∧ getProperty inst' "pages" (simulating (Target web))
      = (Throw (JsError
           "Property pages of type Report can only be accessed in a node environment, current environment is web."),
         simulating (Target web))
    ∧ getProperty inst' "pages" (simulating (Target node))
      = (Ok (VNumber 12), simulating (Target node))
    ∧ ∃ wrapper,
        getProperty inst' "print" (simulating (Target web))
        = (Ok wrapper, simulating (Target web))
        ∧ callValue numberedBehaviour wrapper VUndefined [] (simulating (Target web))
          = (Throw (JsError
               "Method print can only be called in a node environment, current platform is web."),
             simulating (Target web)).
Proof.
  destruct (guarded_class_checks_members_at_use numberedBehaviour node reportClass []
              (simulating (Target web)) (simulating (Target web)) reportInstance)
    as (inst' & st' & Hrun & Hplain & Hmethod).
  - not_inherited.
  - reflexivity.
  - apply (bool_decide_unpack _). vm_compute. exact I.
  - intros k Hk _. vm_compute in Hk.
    apply elem_of_cons in Hk as [->|Hk]; [eexists; split; reflexivity|].
    apply elem_of_cons in Hk as [->|Hk]; [eexists; split; reflexivity|].
    apply elem_of_cons in Hk as [->|Hk]; [eexists; split; reflexivity|].
    apply elem_of_cons in Hk as [->|Hk]; [eexists; split; reflexivity|].
    apply elem_of_nil in Hk. contradiction.
  - exists inst', st'. split; [exact Hrun|].
    assert (Hpages : "pages" ∈ allPropertiesOf reportInstance)
      by (apply (bool_decide_unpack _); vm_compute; exact I).
    assert (Hprint : "print" ∈ allPropertiesOf reportInstance)
      by (apply (bool_decide_unpack _); vm_compute; exact I).
    split; [exact (Hplain "pages" (VNumber 12) (simulating (Target web)) Hpages
                     eq_refl eq_refl eq_refl eq_refl)|].
    split; [exact (Hplain "pages" (VNumber 12) (simulating (Target node)) Hpages
                     eq_refl eq_refl eq_refl eq_refl)|].
    exact (Hmethod "print" (clientFunction 1) VUndefined [] (simulating (Target web))
             Hprint eq_refl eq_refl eq_refl).
Defined.

Lemma registry_mark_then_query_witness :
  (addToCrossPlatformProperties "Report" "title" (simulating (Target web))).1 = Ok tt
  ∧ (isInCrossPlatformProperties "Report" "title"
       (addToCrossPlatformProperties "Report" "title" (simulating (Target web))).2).1
    = Ok true
  ∧ (isInCrossPlatformProperties "Report" "pages"
       (addToCrossPlatformProperties "Report" "title" (simulating (Target web))).2).1
    = Ok false
  ∧ (isInPlatformSpecificProperties "Report" "title"
       (addToCrossPlatformProperties "Report" "title" (simulating (Target web))).2).1
    = Ok false.
Proof.
  assert (Hn : "Report" ∉ objectPrototypeKeys) by not_inherited.
  destruct (registry_mark_then_query "Report" "title" "Report" "title"
              (simulating (Target web)) Hn) as (Hadd & Hsame & Hother & _).
  destruct (registry_mark_then_query "Report" "title" "Report" "pages"
              (simulating (Target web)) Hn) as (_ & Hpages & _).
  split; [exact Hadd|]. split; [exact Hsame|]. split; [exact Hpages|].
  reflexivity.
Defined.
